(** * Verification of the MAS coordinator (routing, UMS gateway, synthesis)

    Shallow embedding of [src/task/agent.py] and
    [src/task/coordination/ums_agent.py].  Python values that come from
    JSON ([json.loads] results, DIAL persisted state) are the inductive
    [json]; Python exceptions are the inductive [exn]; every side effect
    the code performs on the outside world (HTTP calls, stage and choice
    appends, state writes, stage open/close) is recorded as an [event]
    in a trace threaded through a small state-and-error monad. *)

From Stdlib Require Import String List Bool ZArith Ascii Lia.
#[local] Set Warnings "-register-all".
Import ListNotations.
Open Scope string_scope.
Open Scope list_scope.

(* ------------------------------------------------------------------ *)
(** ** JSON values and the Python operations the code applies to them *)

(** A value produced by [json.loads] (or a JSON-typed pydantic field).
    Objects are association lists with distinct keys (Python dicts);
    numbers are only observed through their truthiness. *)
Inductive json : Type :=
| JNull
| JBool (b : bool)
| JNum (z : Z)
| JStr (s : string)
| JArr (l : list json)
| JObj (kvs : list (string * json)).

(** Python exceptions raised along the modelled paths. *)
Inductive exn : Type :=
| JSONDecodeError
| ValidationError
| KeyError
| IndexError
| TypeError
| AttributeError
| HTTPError.

Definition py_result (A : Type) := (exn + A)%type.

Fixpoint dict_lookup (k : string) (kvs : list (string * json)) : option json :=
  match kvs with
  | [] => None
  | (k', v) :: rest => if String.eqb k k' then Some v else dict_lookup k rest
  end.

Definition is_str (k : string) (j : json) : bool :=
  match j with JStr s => String.eqb s k | _ => false end.

(** [k in j] for a string [k]: key membership on a dict, element
    membership on a list, substring test on a str, [TypeError] on
    [None], bools and numbers. *)
Definition py_contains (k : string) (j : json) : py_result bool :=
  match j with
  | JObj kvs => inr (if dict_lookup k kvs then true else false)
  | JArr l => inr (existsb (is_str k) l)
  | JStr s => inr (if String.index 0 k s then true else false)
  | _ => inl TypeError
  end.

(** [j[k]] for a string [k]. *)
Definition py_getitem_str (j : json) (k : string) : py_result json :=
  match j with
  | JObj kvs => match dict_lookup k kvs with Some v => inr v | None => inl KeyError end
  | _ => inl TypeError
  end.

(** [j[0]]. *)
Definition py_getitem_zero (j : json) : py_result json :=
  match j with
  | JArr [] => inl IndexError
  | JArr (x :: _) => inr x
  | JStr EmptyString => inl IndexError
  | JStr (String c _) => inr (JStr (String c EmptyString))
  | JObj _ => inl KeyError
  | _ => inl TypeError
  end.

(** [j.get(k, default)]: only dicts have [get]. *)
Definition py_dict_get (j : json) (k : string) (default : json) : py_result json :=
  match j with
  | JObj kvs => match dict_lookup k kvs with Some v => inr v | None => inr default end
  | _ => inl AttributeError
  end.

(** Python truthiness. *)
Definition py_truthy (j : json) : bool :=
  match j with
  | JNull => false
  | JBool b => b
  | JNum z => negb (Z.eqb z 0)
  | JStr s => negb (String.eqb s "")
  | JArr l => match l with [] => false | _ => true end
  | JObj kvs => match kvs with [] => false | _ => true end
  end.

(** [acc += j] with [acc : str]. *)
Definition py_str_iadd (acc : string) (j : json) : py_result string :=
  match j with
  | JStr s => inr (acc ++ s)%string
  | _ => inl TypeError
  end.

(* ------------------------------------------------------------------ *)
(** ** Effects: trace of observable actions, state-and-error monad *)

Inductive agent_name : Type := GPA | UMS.

Definition agent_name_str (a : agent_name) : string :=
  match a with GPA => "GPA" | UMS => "UMS" end.

Inductive event : Type :=
| EvOpenStage (sid : nat) (name : string)
| EvStageAppend (sid : nat) (s : string)
| EvCloseStage (sid : nat)
| EvChoiceAppend (s : string)
| EvSetState (st : json)
| EvClassifierCall (msgs : list (list (string * json)))
| EvGatewayInvoke (a : agent_name)
| EvCreateConversation
| EvChatCall (conversation_id : json) (content : string)
| EvSynthesisCall (msgs : list (list (string * json))).

(** A computation reads the trace so far, may append to it, and either
    returns a value or raises. *)
Definition M (A : Type) := list event -> py_result A * list event.

Definition ret {A} (a : A) : M A := fun tr => (inr a, tr).
Definition raise {A} (e : exn) : M A := fun tr => (inl e, tr).
Definition bind {A B} (m : M A) (f : A -> M B) : M B :=
  fun tr => match m tr with
            | (inl e, tr') => (inl e, tr')
            | (inr a, tr') => f a tr'
            end.
Definition emit (e : event) : M unit := fun tr => (inr tt, tr ++ [e]).
Definition lift {A} (r : py_result A) : M A :=
  match r with inl e => raise e | inr a => ret a end.

Notation "x <- m ;; k" := (bind m (fun x => k))
  (at level 61, m at next level, right associativity).
Notation "m ;;; k" := (bind m (fun _ => k))
  (at level 61, right associativity).

(* ------------------------------------------------------------------ *)
(** ** UMS gateway: the chat stream loop ([__call_ums_agent]) *)

Section UMSStream.

(** [json.loads] on one line: [None] when it raises [JSONDecodeError]. *)
Variable loads : string -> option json.
Variable stage_id : nat.

(** The body of [try: ...] for one parsed chunk: returns the new
    accumulated content. *)
Definition handle_chunk (acc : string) (chunk_data : json) : M string :=
  has <- lift (py_contains "choices" chunk_data) ;;
  if has then
    choices <- lift (py_getitem_str chunk_data "choices") ;;
    first <- lift (py_getitem_zero choices) ;;
    delta <- lift (py_dict_get first "delta" (JObj [])) ;;
    content <- lift (py_dict_get delta "content" (JStr "")) ;;
    if py_truthy content then
      acc' <- lift (py_str_iadd acc content) ;;
      (match content with
       | JStr s => emit (EvStageAppend stage_id s)
       | _ => ret tt
       end) ;;;
      ret acc'
    else ret acc
  else ret acc.

Definition strip_data (line : string) : string :=
  if String.prefix "data: " line then substring 6 (String.length line - 6) line
  else line.

(** [async for line in response.aiter_lines(): ...]; the loop ends at
    [[DONE]] ([break]) or at end of stream. *)
Fixpoint read_lines (acc : string) (lines : list string) : M string :=
  match lines with
  | [] => ret acc
  | line :: rest =>
      if String.eqb line "" then read_lines acc rest
      else
        let line := strip_data line in
        if String.eqb line "[DONE]" then ret acc
        else
          match loads line with
          | None => read_lines acc rest
          | Some chunk_data =>
              acc' <- handle_chunk acc chunk_data ;;
              read_lines acc' rest
          end
  end.

End UMSStream.

(* ------------------------------------------------------------------ *)
(** ** Prompts ([src/task/prompts.py]) *)

(** Python's ["\n"]. *)
Definition nl : string := String (Ascii.ascii_of_nat 10) EmptyString.

Definition COORDINATION_REQUEST_SYSTEM_PROMPT : string :=
"
You are a Multi-Agent System (MAS) Coordination Assistant. Your role is to analyze user requests and route them to the appropriate specialized agent.

## Available Agents

### GPA (General-Purpose Agent)
Handles general tasks including:
- Web search using DuckDuckGo
- RAG (Retrieval-Augmented Generation) search through uploaded documents (PDF, TXT, CSV, images)
- Python code execution for calculations, data analysis, chart generation
- Image generation using DALL-E

### UMS (Users Management Service Agent)
Handles user management operations:
- Search for users in the system
- Create new users
- Update user information
- Delete users
- List users with filters

## Your Task
1. Analyze the user's request to understand their intent
2. Determine which agent is best suited to handle the request
3. Provide additional instructions if needed to clarify the request for the chosen agent

## Decision Guidelines
- If the request involves user management (creating, searching, updating, deleting users) → UMS
- If the request involves web search, document analysis, calculations, code execution, or image generation → GPA
- When in doubt about user-related queries, check if it's about system users (UMS) or general information (GPA)

Return your decision in the specified JSON format with agent_name and optional additional_instructions.
".

Definition FINAL_RESPONSE_SYSTEM_PROMPT : string :=
"
You are working in the finalization step of a Multi-Agent System. Your role is to synthesize the agent's response into a clear, helpful answer for the user.

## Context
You will receive:
1. The original user request
2. The response from a specialized agent (either GPA or UMS)

## Your Task
- Synthesize the agent's response into a natural, user-friendly answer
- Preserve all important information from the agent's response
- Format the response appropriately (use markdown for structure if helpful)
- If the agent encountered errors or couldn't complete the task, explain this clearly
- Do not add information that wasn't provided by the agent

## Guidelines
- Be concise but complete
- Maintain a helpful, professional tone
- If the agent provided structured data, present it in a readable format
- If images or attachments were generated, reference them appropriately
".

(* ------------------------------------------------------------------ *)
(** ** DIAL messages ([aidial_sdk.chat_completion]) *)

Inductive role : Type := RSystem | RUser | RAssistant | RFunction | RTool.

Definition role_str (r : role) : string :=
  match r with
  | RSystem => "system" | RUser => "user" | RAssistant => "assistant"
  | RFunction => "function" | RTool => "tool"
  end.

Definition role_eqb (r1 r2 : role) : bool :=
  match r1, r2 with
  | RSystem, RSystem | RUser, RUser | RAssistant, RAssistant
  | RFunction, RFunction | RTool, RTool => true
  | _, _ => false
  end.

(** [CustomContent]: stages and attachments as JSON lists, the
    persisted [state] as an arbitrary JSON value ([Optional[Any]]). *)
Record custom_content : Type := {
  cc_stages : option (list json);
  cc_attachments : option (list json);
  cc_state : option json
}.

Record message : Type := {
  m_role : role;
  m_content : option string;
  m_custom_content : option custom_content;
  m_name : option string
}.

Definition assistant_message (content : string) : message :=
  {| m_role := RAssistant; m_content := Some content;
     m_custom_content := None; m_name := None |}.

(** [x or ""] for an optional string. *)
Definition or_empty (o : option string) : string :=
  match o with Some s => s | None => "" end.

(** [* or ""] on an optional string is truthy iff the string is non-empty. *)
Definition opt_truthy (o : option string) : bool :=
  match o with Some s => negb (String.eqb s "") | None => false end.

(** [messages[-1]]. *)
Definition py_last {A} (l : list A) : py_result A :=
  match rev l with [] => inl IndexError | x :: _ => inr x end.

(** The DIAL choice's stage numbering: the next stage gets the number of
    stages opened so far. *)
Definition count_opens (tr : list event) : nat :=
  length (filter (fun e => match e with EvOpenStage _ _ => true | _ => false end) tr).

(* ------------------------------------------------------------------ *)
(** ** The outside world *)

(** One chunk of the synthesis model stream: [chunk.choices], each
    choice reduced to its [delta.content]. *)
Definition chunk := list (option string).

Record env : Type := {
  (** [json.loads]: [None] when it raises [JSONDecodeError]. *)
  env_loads : string -> option json;
  (** [POST {ums}/conversations]: the [id] of the body (a string by the
      session protocol), or the exception of [raise_for_status]. *)
  env_create : py_result string;
  (** [POST {ums}/conversations/{id}/chat]: the response lines. *)
  env_chat : json -> string -> py_result (list string);
  (** Classifier completion: [response.choices[0].message.content]. *)
  env_classifier : list (list (string * json)) -> py_result string;
  (** General-purpose agent stream: its content fragments. *)
  env_gpa : list message -> option string -> py_result (list string);
  (** Synthesis completion stream. *)
  env_synthesis : list (list (string * json)) -> py_result (list chunk)
}.

(* ------------------------------------------------------------------ *)
(** ** [UMSAgentGateway] *)

Definition UMS_CONVERSATION_ID : string := "ums_conversation_id".

(** [__get_ums_conversation_id]: the first assistant message (in
    history order) whose truthy state contains the key.  The result is
    Python's [Optional]: [None] at the end of the loop, otherwise the
    stored value (which is [None] again when it is JSON null). *)
Fixpoint get_ums_conversation_id (msgs : list message) : py_result (option json) :=
  match msgs with
  | [] => inr None
  | m :: rest =>
      match m_role m, m_custom_content m with
      | RAssistant, Some cc =>
          match cc_state cc with
          | Some st =>
              if py_truthy st then
                match py_contains UMS_CONVERSATION_ID st with
                | inl e => inl e
                | inr true =>
                    match py_getitem_str st UMS_CONVERSATION_ID with
                    | inl e => inl e
                    | inr v => inr (Some v)
                    end
                | inr false => get_ums_conversation_id rest
                end
              else get_ums_conversation_id rest
          | None => get_ums_conversation_id rest
          end
      | _, _ => get_ums_conversation_id rest
      end
  end.

(** [conversation_id is None]. *)
Definition is_none (o : option json) : bool :=
  match o with None | Some JNull => true | Some _ => false end.

Section UMSGateway.

Variable E : env.

(** [__create_ums_conversation]. *)
Definition create_ums_conversation : M string :=
  emit EvCreateConversation ;;;
  lift (env_create E).

(** [__call_ums_agent]. *)
Definition call_ums_agent (conversation_id : json) (user_message : string)
    (stage : nat) : M string :=
  emit (EvChatCall conversation_id user_message) ;;;
  lines <- lift (env_chat E conversation_id user_message) ;;
  read_lines (env_loads E) stage "" lines.

(** [user_content] after step 2 of [response]. *)
Definition augment_user_content (last_message : message)
    (additional_instructions : option string) : string :=
  let user_content := or_empty (m_content last_message) in
  if opt_truthy additional_instructions then
    (user_content ++ nl ++ nl ++ "Additional context: "
       ++ or_empty additional_instructions)%string
  else user_content.

(** [UMSAgentGateway.response]. *)
Definition ums_response (stage : nat) (msgs : list message)
    (additional_instructions : option string) : M message :=
  found <- lift (get_ums_conversation_id msgs) ;;
  conversation_id <-
    (if is_none found then
       cid <- create_ums_conversation ;;
       emit (EvSetState (JObj [(UMS_CONVERSATION_ID, JStr cid)])) ;;;
       ret (JStr cid)
     else ret (match found with Some v => v | None => JNull end)) ;;
  last_message <- lift (py_last msgs) ;;
  let user_content := augment_user_content last_message additional_instructions in
  response_content <- call_ums_agent conversation_id user_content stage ;;
  ret (assistant_message response_content).

End UMSGateway.
(* ------------------------------------------------------------------ *)
(** ** [MASCoordinator] *)

(** A Python dict built by the coordinator (an outgoing chat message). *)
Definition dict := list (string * json).

Definition opt_field {A} (k : string) (f : A -> json) (o : option A) : dict :=
  match o with Some a => [(k, f a)] | None => [] end.

(** [state] with [exclude_none]: a JSON null is Python [None]. *)
Definition opt_any_field (k : string) (o : option json) : dict :=
  match o with Some JNull | None => [] | Some v => [(k, v)] end.

(** [custom_content.dict(exclude_none=True)], in field order. *)
Definition custom_content_dict (cc : custom_content) : json :=
  JObj (opt_field "stages" JArr (cc_stages cc)
        ++ opt_field "attachments" JArr (cc_attachments cc)
        ++ opt_any_field "state" (cc_state cc)).

(** [msg.dict(exclude_none=True)], in field order. *)
Definition message_dict (m : message) : dict :=
  [("role", JStr (role_str (m_role m)))]
  ++ opt_field "content" JStr (m_content m)
  ++ opt_field "custom_content" custom_content_dict (m_custom_content m)
  ++ opt_field "name" JStr (m_name m).

(** The loop body of [__prepare_messages]. *)
Definition adapt_message (msg : message) : dict :=
  match m_role msg, m_custom_content msg with
  | RUser, Some _ => [("role", JStr "user"); ("content", JStr (or_empty (m_content msg)))]
  | _, _ => message_dict msg
  end.

(** [__prepare_messages]. *)
Definition prepare_messages (msgs : list message) (system_prompt : string) : list dict :=
  [("role", JStr "system"); ("content", JStr system_prompt)] :: map adapt_message msgs.

Record coordination_request : Type := {
  cr_agent_name : agent_name;
  cr_additional_instructions : option string
}.

(** Modelled from the spec: [CoordinationRequest.model_validate]
    ([task/models.py] is not part of the sources).  The decision is an
    object with [agent_name] one of the enum values ["GPA"], ["UMS"] and
    an optional string [additional_instructions]; anything else is a
    validation error. *)
Definition model_validate (data : json) : py_result coordination_request :=
  match data with
  | JObj kvs =>
      let agent :=
        match dict_lookup "agent_name" kvs with
        | Some (JStr "GPA") => inr GPA
        | Some (JStr "UMS") => inr UMS
        | _ => inl ValidationError
        end in
      let instr :=
        match dict_lookup "additional_instructions" kvs with
        | None | Some JNull => inr None
        | Some (JStr s) => inr (Some s)
        | Some _ => inl ValidationError
        end in
      match agent, instr with
      | inr a, inr i => inr {| cr_agent_name := a; cr_additional_instructions := i |}
      | _, _ => inl ValidationError
      end
  | _ => inl ValidationError
  end.

(** [last_msg['content'] = v]: overwrite the key in place, or add it at
    the end. *)
Fixpoint dict_set (k : string) (v : json) (d : dict) : dict :=
  match d with
  | [] => [(k, v)]
  | (k', v') :: rest =>
      if String.eqb k k' then (k', v) :: rest else (k', v') :: dict_set k v rest
  end.

(** The f-string rendering of [last_msg.get('content', '')]; every
    adapted message carries a [str] content when it carries one. *)
Definition content_text (j : json) : string :=
  match j with JStr s => s | _ => "" end.

Definition augmented_content (original_content : string) (agent_message : message) : string :=
  ("## Original User Request" ++ nl ++ original_content ++ nl ++ nl
   ++ "## Agent Response" ++ nl ++ or_empty (m_content agent_message))%string.

(** Step "augment last user message" of [__final_response]. *)
Definition augment_last (messages : list dict) (agent_message : message) : list dict :=
  match rev messages with
  | [] => messages
  | last_msg :: before =>
      let original_content :=
        content_text (match dict_lookup "content" last_msg with Some v => v | None => JStr "" end) in
      rev before ++ [dict_set "content" (JStr (augmented_content original_content agent_message)) last_msg]
  end.

Section Coordinator.

Variable E : env.

(** Modelled from the spec: [StageProcessor.open_stage]
    ([task/stage_util.py] is not part of the sources) opens a new stage
    of the choice with the given name. *)
Definition open_stage (name : string) : M nat :=
  fun tr => (inr (count_opens tr), tr ++ [EvOpenStage (count_opens tr) name]).

(** Modelled from the spec: [StageProcessor.close_stage_safely] closes
    the stage and never raises. *)
Definition close_stage_safely (sid : nat) : M unit := emit (EvCloseStage sid).

(** [__prepare_coordination_request]. *)
Definition prepare_coordination_request (msgs : list message) : M coordination_request :=
  let messages := prepare_messages msgs COORDINATION_REQUEST_SYSTEM_PROMPT in
  emit (EvClassifierCall messages) ;;;
  content <- lift (env_classifier E messages) ;;
  data <- (match env_loads E content with
           | Some d => ret d
           | None => raise JSONDecodeError
           end) ;;
  lift (model_validate data).

(** Appends each fragment to a stage, in order. *)
Fixpoint stage_append_all (sid : nat) (frags : list string) : M unit :=
  match frags with
  | [] => ret tt
  | f :: rest => emit (EvStageAppend sid f) ;;; stage_append_all sid rest
  end.

(** Modelled from the spec: [GPAGateway.response]
    ([task/coordination/gpa.py] is not part of the sources) streams the
    general-purpose agent's fragments into the stage and returns their
    concatenation as an assistant message. *)
Definition gpa_response (stage : nat) (msgs : list message)
    (additional_instructions : option string) : M message :=
  frags <- lift (env_gpa E msgs additional_instructions) ;;
  stage_append_all stage frags ;;;
  ret (assistant_message (String.concat "" frags)).

(** [__handle_coordination_request]. *)
Definition handle_coordination_request (cr : coordination_request) (stage : nat)
    (msgs : list message) : M message :=
  emit (EvGatewayInvoke (cr_agent_name cr)) ;;;
  match cr_agent_name cr with
  | UMS => ums_response E stage msgs (cr_additional_instructions cr)
  | GPA => gpa_response stage msgs (cr_additional_instructions cr)
  end.

(** [async for chunk in stream: ...] of [__final_response]. *)
Fixpoint read_chunks (content : string) (chunks : list chunk) : M string :=
  match chunks with
  | [] => ret content
  | ch :: rest =>
      match ch with
      | Some c :: _ =>
          if negb (String.eqb c "") then
            emit (EvChoiceAppend c) ;;; read_chunks (content ++ c)%string rest
          else read_chunks content rest
      | _ => read_chunks content rest
      end
  end.

(** [__final_response]. *)
Definition final_response (msgs : list message) (agent_message : message) : M message :=
  let messages := prepare_messages msgs FINAL_RESPONSE_SYSTEM_PROMPT in
  let messages := augment_last messages agent_message in
  emit (EvSynthesisCall messages) ;;;
  chunks <- lift (env_synthesis E messages) ;;
  content <- read_chunks "" chunks ;;
  ret (assistant_message content).

(** The text logged to the coordination stage. *)
Definition routing_text (cr : coordination_request) : string :=
  ("Routing to: **" ++ agent_name_str (cr_agent_name cr) ++ "**" ++ nl
   ++ "Instructions: "
   ++ (if opt_truthy (cr_additional_instructions cr)
       then or_empty (cr_additional_instructions cr) else "None"))%string.

(** [handle_request]. *)
Definition handle_request (msgs : list message) : M message :=
  coordination_stage <- open_stage "🧭 Coordination" ;;
  coordination_request <- prepare_coordination_request msgs ;;
  emit (EvStageAppend coordination_stage (routing_text coordination_request)) ;;;
  close_stage_safely coordination_stage ;;;
  agent_stage <- open_stage ("🤖 " ++ agent_name_str (cr_agent_name coordination_request) ++ " Agent")%string ;;
  agent_message <- handle_coordination_request coordination_request agent_stage msgs ;;
  close_stage_safely agent_stage ;;;
  final_response msgs agent_message.

End Coordinator.
(* ------------------------------------------------------------------ *)
(** ** A concrete [json.loads] for test streams

    Parses the JSON fragment used by the test inputs below (null, true,
    false, integers, strings without escapes, arrays, objects, blanks);
    on that fragment it agrees with Python's [json.loads], and it
    rejects everything else. *)

Definition is_ws (c : ascii) : bool :=
  match nat_of_ascii c with 32 | 9 | 10 | 13 => true | _ => false end.

Fixpoint skip_ws (s : list ascii) : list ascii :=
  match s with c :: r => if is_ws c then skip_ws r else s | [] => [] end.

Definition digit_val (c : ascii) : option Z :=
  let n := nat_of_ascii c in
  if Nat.leb 48 n && Nat.leb n 57 then Some (Z.of_nat (n - 48)) else None.

Fixpoint digits (acc : Z) (s : list ascii) : Z * list ascii :=
  match s with
  | c :: r => match digit_val c with Some d => digits (acc * 10 + d) r | None => (acc, s) end
  | [] => (acc, [])
  end.

Fixpoint str_body (acc : list ascii) (s : list ascii) : option (string * list ascii) :=
  match s with
  | [] => None
  | c :: r =>
      if Ascii.eqb c (ascii_of_nat 34) then Some (string_of_list_ascii (rev acc), r)
      else if Ascii.eqb c (ascii_of_nat 92) then None
      else str_body (c :: acc) r
  end.

Fixpoint parse_value (fuel : nat) (s : list ascii) : option (json * list ascii) :=
  match fuel with
  | O => None
  | S f =>
      match skip_ws s with
      | "n"%char :: "u"%char :: "l"%char :: "l"%char :: r => Some (JNull, r)
      | "t"%char :: "r"%char :: "u"%char :: "e"%char :: r => Some (JBool true, r)
      | "f"%char :: "a"%char :: "l"%char :: "s"%char :: "e"%char :: r => Some (JBool false, r)
      | "["%char :: r =>
          match skip_ws r with
          | "]"%char :: r' => Some (JArr [], r')
          | _ => parse_elems f [] r
          end
      | "{"%char :: r =>
          match skip_ws r with
          | "}"%char :: r' => Some (JObj [], r')
          | _ => parse_members f [] r
          end
      | "-"%char :: r =>
          match r with
          | c :: _ => match digit_val c with
                      | Some _ => let (z, r') := digits 0 r in Some (JNum (- z), r')
                      | None => None
                      end
          | [] => None
          end
      | c :: r =>
          if Ascii.eqb c (ascii_of_nat 34) then
            match str_body [] r with Some (str, r') => Some (JStr str, r') | None => None end
          else match digit_val c with
               | Some _ => let (z, r') := digits 0 (c :: r) in Some (JNum z, r')
               | None => None
               end
      | [] => None
      end
  end
with parse_elems (fuel : nat) (acc : list json) (s : list ascii) : option (json * list ascii) :=
  match fuel with
  | O => None
  | S f =>
      match parse_value f s with
      | Some (v, r) =>
          match skip_ws r with
          | ","%char :: r' => parse_elems f (v :: acc) r'
          | "]"%char :: r' => Some (JArr (rev (v :: acc)), r')
          | _ => None
          end
      | None => None
      end
  end
with parse_members (fuel : nat) (acc : list (string * json)) (s : list ascii)
    : option (json * list ascii) :=
  match fuel with
  | O => None
  | S f =>
      match skip_ws s with
      | c :: r =>
          if Ascii.eqb c (ascii_of_nat 34) then
            match str_body [] r with
            | Some (k, r1) =>
                match skip_ws r1 with
                | ":"%char :: r2 =>
                    match parse_value f r2 with
                    | Some (v, r3) =>
                        match skip_ws r3 with
                        | ","%char :: r4 => parse_members f ((k, v) :: acc) r4
                        | "}"%char :: r4 => Some (JObj (rev ((k, v) :: acc)), r4)
                        | _ => None
                        end
                    | None => None
                    end
                | _ => None
                end
            | None => None
            end
          else None
      | [] => None
      end
  end.

Definition loads_fragment (s : string) : option json :=
  let cs := list_ascii_of_string s in
  match parse_value (length cs + 1) cs with
  | Some (v, r) => match skip_ws r with [] => Some v | _ => None end
  | None => None
  end.

(** Test inputs write JSON's double quote as a single quote. *)
Definition dq (s : string) : string :=
  string_of_list_ascii
    (map (fun c => if Ascii.eqb c "'"%char then ascii_of_nat 34 else c) (list_ascii_of_string s)).

Example loads_fragment_hel :
  loads_fragment (dq "{'choices':[{'delta':{'content':'Hel'}}]}")
  = Some (JObj [("choices", JArr [JObj [("delta", JObj [("content", JStr "Hel")])]])]).
Proof. reflexivity. Qed.

Example loads_fragment_not_json : loads_fragment "not json" = None.
Proof. reflexivity. Qed.

(** The stream of the spec's scenario. *)
Definition scenario_lines : list string :=
  [dq "data: {'choices':[{'delta':{'content':'Hel'}}]}";
   dq "data: {'choices':[{'delta':{'content':'lo'}}]}";
   dq "data: {'conversation_id':'abc'}";
   "data: [DONE]";
   "trailing garbage"].

Example scenario_hello :
  read_lines loads_fragment 1 "" scenario_lines []
  = (inr "Hello", [EvStageAppend 1 "Hel"; EvStageAppend 1 "lo"]).
Proof. reflexivity. Qed.

(* ------------------------------------------------------------------ *)
(** ** Reading of the spec: content fragments of a stream *)

(** The content fragment of an event, as the spec describes it: the
    string at [choices[0].delta.content]. *)
Definition content_fragment (j : json) : option string :=
  match j with
  | JObj kvs =>
      match dict_lookup "choices" kvs with
      | Some (JArr (JObj c :: _)) =>
          match dict_lookup "delta" c with
          | Some (JObj d) =>
              match dict_lookup "content" d with Some (JStr s) => Some s | _ => None end
          | _ => None
          end
      | _ => None
      end
  | _ => None
  end.

Definition is_sentinel (line : string) : bool := String.eqb (strip_data line) "[DONE]".

(** The fragments of the lines before the first sentinel, in order;
    blank keep-alive lines and unparsable lines carry none. *)
Fixpoint stream_fragments (loads : string -> option json) (lines : list string) : list string :=
  match lines with
  | [] => []
  | l :: rest =>
      if String.eqb l "" then stream_fragments loads rest
      else if is_sentinel l then []
      else
        match option_map content_fragment (loads (strip_data l)) with
        | Some (Some s) => s :: stream_fragments loads rest
        | _ => stream_fragments loads rest
        end
  end.

(** The fragments of the synthesis stream: the first choice's content. *)
Fixpoint synthesis_fragments (chunks : list chunk) : list string :=
  match chunks with
  | [] => []
  | (Some c :: _) :: rest => c :: synthesis_fragments rest
  | _ :: rest => synthesis_fragments rest
  end.

(* ------------------------------------------------------------------ *)
(** ** Generic lemmas *)

Lemma str_app_assoc (a b c : string) : (a ++ (b ++ c))%string = ((a ++ b) ++ c)%string.
Proof. induction a as [|x a IH]; simpl; [reflexivity | now rewrite IH]. Qed.

Lemma str_app_nil_r (a : string) : (a ++ "")%string = a.
Proof. induction a as [|x a IH]; simpl; [reflexivity | now rewrite IH]. Qed.

Lemma concat_cons (s : string) (l : list string) :
  String.concat "" (s :: l) = (s ++ String.concat "" l)%string.
Proof. destruct l; simpl; [now rewrite str_app_nil_r | reflexivity]. Qed.

Lemma string_eqb_refl' (s : string) : String.eqb s s = true.
Proof. apply String.eqb_refl. Qed.

(** Events a stage-streaming step may emit. *)
Definition stage_event (sid : nat) (e : event) : Prop := exists s, e = EvStageAppend sid s.

Section StreamLemmas.

Variable loads : string -> option json.
Variable sid : nat.

Lemma py_getitem_str_inv (j : json) (k : string) (v : json) :
  py_getitem_str j k = inr v -> exists kvs, j = JObj kvs /\ dict_lookup k kvs = Some v.
Proof.
  destruct j; simpl; try discriminate.
  destruct (dict_lookup k kvs) eqn:E; intros H; [injection H; intros; subst; eauto | discriminate].
Qed.

Lemma py_getitem_zero_inv (j x : json) :
  py_getitem_zero j = inr x ->
  (exists rest, j = JArr (x :: rest)) \/
  (exists c s, j = JStr (String c s) /\ x = JStr (String c EmptyString)).
Proof.
  destruct j as [| | | [|c s] | [|y l] | kvs]; simpl; intros H; try discriminate;
    injection H; intros; subst; eauto.
Qed.

Lemma py_dict_get_inv (j : json) (k : string) (d v : json) :
  py_dict_get j k d = inr v ->
  exists kvs, j = JObj kvs /\ v = match dict_lookup k kvs with Some w => w | None => d end.
Proof.
  destruct j; simpl; try discriminate.
  intros H; exists kvs; split; [reflexivity|].
  destruct (dict_lookup k kvs); injection H; auto.
Qed.

Lemma py_str_iadd_inv (acc : string) (c : json) (s : string) :
  py_str_iadd acc c = inr s -> exists t, c = JStr t /\ s = (acc ++ t)%string.
Proof. destruct c; simpl; try discriminate. intros H; injection H; eauto. Qed.

Lemma no_ext (sid0 : nat) (tr : list event) :
  exists ext, tr = tr ++ ext /\ Forall (stage_event sid0) ext.
Proof. exists []; rewrite app_nil_r; auto. Qed.

Lemma handle_chunk_spec (acc : string) (j : json) (tr : list event) r tr' :
  handle_chunk sid acc j tr = (r, tr') ->
  (exists ext, tr' = tr ++ ext /\ Forall (stage_event sid) ext) /\
  (forall acc', r = inr acc' ->
     acc' = (acc ++ match content_fragment j with Some s => s | None => "" end)%string).
Proof.
  unfold handle_chunk, bind at 1, lift at 1.
  destruct (py_contains "choices" j) as [e|has] eqn:Hc; simpl;
    [intros H; injection H; intros; subst; split; [apply no_ext | discriminate] |].
  destruct has; simpl;
    [| unfold ret; intros H; injection H; intros; subst; split; [apply no_ext|] ].
  2:{ intros acc' Hr; injection Hr; intros; subst.
      destruct j; simpl in Hc; try discriminate; simpl; try (rewrite str_app_nil_r; reflexivity).
      injection Hc; intros Hb; destruct (dict_lookup "choices" kvs); [discriminate|].
      rewrite str_app_nil_r; reflexivity. }
  unfold bind at 1, lift at 1.
  destruct (py_getitem_str j "choices") as [e|choices] eqn:Hg; simpl;
    [intros H; injection H; intros; subst; split; [apply no_ext | discriminate] |].
  apply py_getitem_str_inv in Hg as (kvs & -> & Hl).
  unfold bind at 1, lift at 1.
  destruct (py_getitem_zero choices) as [e|first] eqn:Hz; simpl;
    [intros H; injection H; intros; subst; split; [apply no_ext | discriminate] |].
  unfold bind at 1, lift at 1.
  destruct (py_dict_get first "delta" (JObj [])) as [e|delta] eqn:Hd; simpl;
    [intros H; injection H; intros; subst; split; [apply no_ext | discriminate] |].
  apply py_dict_get_inv in Hd as (c & -> & Hdelta).
  apply py_getitem_zero_inv in Hz as [(rest & ->) | (ch & s & -> & Hx)];
    [| discriminate].
  unfold bind at 1, lift at 1.
  destruct (py_dict_get delta "content" (JStr "")) as [e|content] eqn:Hct; simpl;
    [intros H; injection H; intros; subst; split; [apply no_ext | discriminate] |].
  apply py_dict_get_inv in Hct as (d & -> & Hcontent).
  simpl; rewrite Hl.
  destruct (py_truthy content) eqn:Ht.
  - unfold bind at 1, lift at 1.
    destruct (py_str_iadd acc content) as [e|acc1] eqn:Hi; simpl;
      [intros H; injection H; intros; subst; split; [apply no_ext | discriminate] |].
    apply py_str_iadd_inv in Hi as (t & -> & ->).
    unfold bind, emit, ret; simpl; intros H; injection H; intros; subst.
    split.
    + exists [EvStageAppend sid t]; split; [reflexivity|]. repeat constructor. eexists; reflexivity.
    + intros acc' Hr; injection Hr; intros; subst.
      destruct (dict_lookup "delta" c) as [w|] eqn:Hw; subst;
        [| ].
      * destruct (dict_lookup "content" d) as [w'|] eqn:Hw'; subst; [reflexivity|].
        injection Hcontent as ->; reflexivity.
      * injection Hdelta as ->; simpl in Hcontent; injection Hcontent as ->; reflexivity.
  - unfold ret; intros H; injection H; intros; subst; split; [apply no_ext|].
    intros acc' Hr; injection Hr; intros; subst.
    destruct (dict_lookup "delta" c) as [w|] eqn:Hw; subst;
      [| rewrite str_app_nil_r; reflexivity].
    destruct (dict_lookup "content" d) as [w'|] eqn:Hw'; subst;
      [| rewrite str_app_nil_r; reflexivity].
    destruct w'; try (rewrite str_app_nil_r; reflexivity).
    simpl in Ht. destruct (String.eqb s "") eqn:Es; [| discriminate].
    apply String.eqb_eq in Es; subst; rewrite str_app_nil_r; reflexivity.
Qed.

Lemma read_lines_spec (lines : list string) : forall acc tr r tr',
  read_lines loads sid acc lines tr = (r, tr') ->
  (exists ext, tr' = tr ++ ext /\ Forall (stage_event sid) ext) /\
  (forall s, r = inr s -> s = (acc ++ String.concat "" (stream_fragments loads lines))%string).
Proof.
  induction lines as [|line rest IH]; intros acc tr r tr' H; simpl in H |- *.
  - injection H; intros; subst; split; [apply no_ext|].
    intros s Hs; injection Hs; intros; subst; now rewrite str_app_nil_r.
  - destruct (String.eqb line "") eqn:Hblank; [now apply IH|].
    unfold is_sentinel.
    destruct (String.eqb (strip_data line) "[DONE]") eqn:Hdone.
    + unfold ret in H; injection H; intros; subst; split; [apply no_ext|].
      intros s Hs; injection Hs; intros; subst; simpl; now rewrite str_app_nil_r.
    + destruct (loads (strip_data line)) as [d|] eqn:Hl; simpl; [|now apply IH].
      unfold bind at 1 in H.
      destruct (handle_chunk sid acc d tr) as [[e|acc1] t1] eqn:Hh.
      * apply handle_chunk_spec in Hh as [Hext _].
        injection H; intros; subst; split; [exact Hext | discriminate].
      * apply handle_chunk_spec in Hh as [(ext1 & -> & Hf1) Hacc].
        specialize (Hacc acc1 eq_refl).
        apply IH in H as [(ext2 & -> & Hf2) Hres].
        split.
        -- exists (ext1 ++ ext2); rewrite app_assoc; split; [reflexivity|].
           apply Forall_app; auto.
        -- intros s Hs; rewrite (Hres s Hs), Hacc.
           destruct (content_fragment d) as [f|].
           ++ rewrite concat_cons, str_app_assoc; reflexivity.
           ++ rewrite str_app_nil_r; reflexivity.
Qed.

End StreamLemmas.

(** The text delivered to the caller-facing channel by a trace. *)
Fixpoint choice_text (tr : list event) : string :=
  match tr with
  | [] => ""
  | EvChoiceAppend s :: rest => (s ++ choice_text rest)%string
  | _ :: rest => choice_text rest
  end.

Definition choice_event (e : event) : Prop := exists s, e = EvChoiceAppend s.

Lemma choice_text_app (a b : list event) :
  choice_text (a ++ b) = (choice_text a ++ choice_text b)%string.
Proof.
  induction a as [|e a IH]; simpl; [reflexivity|].
  destruct e; rewrite ?IH; try reflexivity. apply str_app_assoc.
Qed.

Lemma read_chunks_spec (E : env) (chunks : list chunk) : forall content tr,
  exists ext,
    read_chunks content chunks tr
    = (inr (content ++ String.concat "" (synthesis_fragments chunks))%string, tr ++ ext) /\
    Forall choice_event ext /\
    choice_text ext = String.concat "" (synthesis_fragments chunks).
Proof.
  induction chunks as [|ch rest IH]; intros content tr; cbn [read_chunks synthesis_fragments].
  - exists []; rewrite app_nil_r, str_app_nil_r; auto.
  - destruct ch as [|[c|] more].
    + apply IH.
    + destruct (String.eqb c "") eqn:Hc; cbn [negb].
      * apply String.eqb_eq in Hc; subst.
        destruct (IH content tr) as (ext & Hr & Hf & Ht).
        exists ext; rewrite Hr, concat_cons; auto.
      * unfold bind, emit.
        destruct (IH (content ++ c)%string (tr ++ [EvChoiceAppend c])) as (ext & Hr & Hf & Ht).
        exists (EvChoiceAppend c :: ext); rewrite Hr, concat_cons, str_app_assoc, <- app_assoc.
        simpl; rewrite Ht; repeat split; auto.
        constructor; [eexists; reflexivity | exact Hf].
    + apply IH.
Qed.

Lemma call_ums_agent_spec (E : env) (cid : json) (c : string) (sid : nat) tr r tr' :
  call_ums_agent E cid c sid tr = (r, tr') ->
  (exists ext, tr' = tr ++ EvChatCall cid c :: ext /\ Forall (stage_event sid) ext) /\
  (forall s lines, r = inr s -> env_chat E cid c = inr lines ->
     s = String.concat "" (stream_fragments (env_loads E) lines)).
Proof.
  unfold call_ums_agent, bind at 1, emit at 1, bind at 1, lift at 1.
  destruct (env_chat E cid c) as [e|lines] eqn:Hchat; simpl.
  - unfold raise; intros H; injection H; intros; subst; split.
    + exists []; auto.
    + discriminate.
  - unfold ret; intros H. apply read_lines_spec in H as [(ext & -> & Hf) Hs].
    split.
    + exists ext; rewrite <- app_assoc; auto.
    + intros s lines' Hr Hl; injection Hl; intros; subst. apply Hs; auto.
Qed.

(* ------------------------------------------------------------------ *)
(** ** C1: streamed content is the concatenation of the fragments *)

(** C1: the content returned by the UMS gateway's chat call is the
    concatenation, in order, of the [choices[0].delta.content] fragments
    of the stream before [[DONE]] (or the end of the stream), and the
    synthesis stage returns the concatenation of the fragments of its
    model stream. *)
Theorem accumulated_content_is_concatenation :
  (forall (E : env) (cid : json) (c : string) (sid : nat) tr s tr' lines,
     call_ums_agent E cid c sid tr = (inr s, tr') ->
     env_chat E cid c = inr lines ->
     s = String.concat "" (stream_fragments (env_loads E) lines)) /\
  (forall (E : env) (msgs : list message) (agent_message : message) tr m tr',
     final_response E msgs agent_message tr = (inr m, tr') ->
     forall chunks,
     env_synthesis E (augment_last (prepare_messages msgs FINAL_RESPONSE_SYSTEM_PROMPT) agent_message)
       = inr chunks ->
     m_content m = Some (String.concat "" (synthesis_fragments chunks))).
Proof.
  split.
  - intros E cid c sid tr s tr' lines H Hl.
    apply call_ums_agent_spec in H as [_ Hs]. now apply Hs.
  - intros E msgs agent_message tr m tr' H chunks Hc.
    unfold final_response, bind at 1, emit at 1, bind at 1, lift at 1 in H.
    rewrite Hc in H; simpl in H.
    destruct (read_chunks_spec E chunks ""
                (tr ++ [EvSynthesisCall (augment_last
                   (prepare_messages msgs FINAL_RESPONSE_SYSTEM_PROMPT) agent_message)]))
      as (ext & Hr & _ & _).
    unfold bind, ret in H; rewrite Hr in H; injection H; intros; subst; reflexivity.
Qed.

(* ------------------------------------------------------------------ *)
(** ** Session resolution and the shape of a UMS gateway run *)

(** The session id a message persists, as the data model describes it:
    an assistant message whose state is a mapping binding the tracked
    key to a string. *)
Definition persisted_session_id (m : message) : option string :=
  match m_role m, m_custom_content m with
  | RAssistant, Some cc =>
      match cc_state cc with
      | Some (JObj kvs) =>
          match dict_lookup UMS_CONVERSATION_ID kvs with Some (JStr id) => Some id | _ => None end
      | _ => None
      end
  | _, _ => None
  end.

(** Persisted state of the data model: absent, or a mapping whose
    tracked key, when present, holds a string. *)
Definition state_wf (m : message) : Prop :=
  m_role m = RAssistant -> forall cc, m_custom_content m = Some cc ->
  match cc_state cc with
  | None | Some JNull => True
  | Some (JObj kvs) =>
      match dict_lookup UMS_CONVERSATION_ID kvs with None | Some (JStr _) => True | _ => False end
  | Some _ => False
  end.

Definition no_session (m : message) : Prop := persisted_session_id m = None.

Lemma get_id_skip (m : message) (rest : list message) :
  state_wf m -> no_session m ->
  get_ums_conversation_id (m :: rest) = get_ums_conversation_id rest.
Proof.
  unfold state_wf, no_session, persisted_session_id.
  destruct m as [r c cc n]; simpl.
  destruct r; try reflexivity.
  destruct cc as [cc|]; [|reflexivity].
  intros Hwf Hn; specialize (Hwf eq_refl cc eq_refl).
  destruct (cc_state cc) as [st|]; [|reflexivity].
  destruct st as [| b | z | s | l | kvs]; try contradiction; try reflexivity.
  destruct (py_truthy (JObj kvs)); [|reflexivity].
  simpl. destruct (dict_lookup UMS_CONVERSATION_ID kvs) as [v|]; [|reflexivity].
  destruct v; try contradiction; discriminate.
Qed.

Lemma get_id_hit (m : message) (rest : list message) (id : string) :
  persisted_session_id m = Some id ->
  get_ums_conversation_id (m :: rest) = inr (Some (JStr id)).
Proof.
  unfold persisted_session_id.
  destruct m as [r c cc n]; cbn [m_role m_custom_content].
  destruct r; try discriminate.
  destruct cc as [cc|]; [|discriminate].
  destruct (cc_state cc) as [st|] eqn:Hs; [|discriminate].
  destruct st as [| b | z | s | l | kvs]; try discriminate.
  destruct (dict_lookup UMS_CONVERSATION_ID kvs) as [v|] eqn:Hl; [|discriminate].
  destruct v; try discriminate.
  intros H; injection H; intros; subst.
  cbn [get_ums_conversation_id m_role m_custom_content]. rewrite Hs.
  destruct kvs as [|kv kvs]; [discriminate|]. cbn [py_truthy].
  unfold py_contains, py_getitem_str. rewrite Hl. reflexivity.
Qed.

Lemma get_id_first_match (pre post : list message) (m : message) (id : string) :
  Forall state_wf pre -> Forall no_session pre ->
  persisted_session_id m = Some id ->
  get_ums_conversation_id (pre ++ m :: post) = inr (Some (JStr id)).
Proof.
  induction pre as [|p pre IH]; intros Hwf Hn Hm; simpl app.
  - now apply get_id_hit.
  - inversion Hwf; inversion Hn; subst.
    rewrite get_id_skip by assumption. now apply IH.
Qed.

Lemma get_id_none (msgs : list message) :
  Forall state_wf msgs -> Forall no_session msgs ->
  get_ums_conversation_id msgs = inr None.
Proof.
  induction msgs as [|m msgs IH]; intros Hwf Hn; [reflexivity|].
  inversion Hwf; inversion Hn; subst.
  rewrite get_id_skip by assumption. now apply IH.
Qed.

(** After the conversation id is settled, [response] either fails on
    [messages[-1]] or issues the chat call and streams into the stage. *)
Definition chat_phase_shape (E : env) (sid : nat) (msgs : list message)
    (ai : option string) (cid : json) (tr0 : list event) (r : py_result message)
    (tr' : list event) : Prop :=
  (msgs = [] /\ r = inl IndexError /\ tr' = tr0) \/
  (exists last ext,
     py_last msgs = inr last /\
     tr' = tr0 ++ EvChatCall cid (augment_user_content last ai) :: ext /\
     Forall (stage_event sid) ext).

Lemma py_last_nil_inv {A} (l : list A) (e : exn) : py_last l = inl e -> l = [] /\ e = IndexError.
Proof.
  unfold py_last. destruct (rev l) eqn:Hr; [|discriminate].
  intros H; injection H; intros; subst; split; auto.
  destruct l; [reflexivity|]; simpl in Hr; destruct (rev l); discriminate.
Qed.

Lemma chat_phase_spec (E : env) (sid : nat) (msgs : list message) (ai : option string)
    (cid : json) (tr0 : list event) r tr' :
  (last_message <- lift (py_last msgs) ;;
   let user_content := augment_user_content last_message ai in
   response_content <- call_ums_agent E cid user_content sid ;;
   ret (assistant_message response_content)) tr0 = (r, tr') ->
  chat_phase_shape E sid msgs ai cid tr0 r tr'.
Proof.
  unfold bind at 1, lift at 1, chat_phase_shape.
  destruct (py_last msgs) as [e|last] eqn:Hl; simpl.
  - unfold raise; intros H; injection H; intros; subst.
    apply py_last_nil_inv in Hl as [-> ->]; left; auto.
  - unfold bind at 1.
    destruct (call_ums_agent E cid (augment_user_content last ai) sid tr0) as [r1 t1] eqn:Hc.
    apply call_ums_agent_spec in Hc as [(ext & -> & Hf) _].
    intros H; right; exists last, ext.
    destruct r1; unfold ret in H; injection H; intros; subst; auto.
Qed.

Lemma ums_response_found (E : env) (sid : nat) (msgs : list message) (ai : option string)
    (v : json) tr r tr' :
  get_ums_conversation_id msgs = inr (Some v) -> is_none (Some v) = false ->
  ums_response E sid msgs ai tr = (r, tr') ->
  chat_phase_shape E sid msgs ai v tr r tr'.
Proof.
  intros Hg Hn. unfold ums_response, bind at 1, lift at 1. rewrite Hg.
  cbv beta iota delta [ret]. rewrite Hn. unfold bind at 1. apply chat_phase_spec.
Qed.

Lemma ums_response_fresh (E : env) (sid : nat) (msgs : list message) (ai : option string)
    (found : option json) tr r tr' :
  get_ums_conversation_id msgs = inr found -> is_none found = true ->
  ums_response E sid msgs ai tr = (r, tr') ->
  match env_create E with
  | inl e => r = inl e /\ tr' = tr ++ [EvCreateConversation]
  | inr id =>
      chat_phase_shape E sid msgs ai (JStr id)
        (tr ++ [EvCreateConversation; EvSetState (JObj [(UMS_CONVERSATION_ID, JStr id)])]) r tr'
  end.
Proof.
  intros Hg Hn. unfold ums_response, bind at 1, lift at 1. rewrite Hg.
  cbv beta iota delta [ret]. rewrite Hn. unfold create_ums_conversation, bind at 1, bind at 1, bind at 1, emit at 1, lift at 1.
  destruct (env_create E) as [e|id]; simpl.
  - unfold raise; intros H; injection H; intros; subst; auto.
  - rewrite <- app_assoc. apply chat_phase_spec.
Qed.

Lemma stage_events_facts (sid : nat) (ext : list event) :
  Forall (stage_event sid) ext ->
  ~ In EvCreateConversation ext /\ (forall st, ~ In (EvSetState st) ext) /\
  (forall c u, ~ In (EvChatCall c u) ext).
Proof.
  rewrite Forall_forall; intros H; repeat split; intros.
  all: intros Hin; destruct (H _ Hin) as [s Hs]; discriminate.
Qed.

Lemma py_last_snoc {A} (pre : list A) (x : A) : py_last (pre ++ [x]) = inr x.
Proof. unfold py_last. now rewrite rev_app_distr. Qed.

Lemma py_last_cons_ok {A} (l : list A) : l <> [] -> exists x, py_last l = inr x.
Proof.
  intros Hl. destruct (exists_last Hl) as (pre & x & ->). exists x; apply py_last_snoc.
Qed.

(** Events of the chat phase: the chat call with the settled id, then
    stage appends only. *)
Lemma chat_phase_facts (E : env) (sid : nat) (msgs : list message) (ai : option string)
    (cid : json) tr0 r tr' :
  chat_phase_shape E sid msgs ai cid tr0 r tr' ->
  exists ext, tr' = tr0 ++ ext /\
    ~ In EvCreateConversation ext /\
    (forall st, ~ In (EvSetState st) ext) /\
    (forall c u, In (EvChatCall c u) ext -> c = cid /\
       exists last, py_last msgs = inr last /\ u = augment_user_content last ai) /\
    (msgs <> [] -> exists u, In (EvChatCall cid u) ext) /\
    Forall (fun e => (exists c u, e = EvChatCall c u) \/ stage_event sid e) ext.
Proof.
  intros [(-> & -> & ->) | (last & ext & Hl & -> & Hf)].
  - exists []; rewrite app_nil_r; split; [reflexivity|].
    split; [intros []|]. split; [intros st []|]. split; [intros c u []|].
    split; [intros H; now contradiction H | constructor].
  - destruct (stage_events_facts sid ext Hf) as (H1 & H2 & H3).
    exists (EvChatCall cid (augment_user_content last ai) :: ext); split; [reflexivity|].
    split; [intros [H|H]; [discriminate | contradiction] |].
    split; [intros st [H|H]; [discriminate | now apply (H2 st)] |].
    split; [intros c u [H|H]; [injection H; intros; subst; split; [reflexivity | exists last; auto]
                              | now apply H3 in H] |].
    split; [intros _; eexists; left; reflexivity |].
    constructor; [left; eauto |].
    eapply Forall_impl; [|exact Hf]; intros; right; assumption.
Qed.

(* ------------------------------------------------------------------ *)
(** ** C2: one session creation on the first turn, none afterwards *)

(** C2: on a history without a persisted session id, the run issues
    exactly one session-creation call, first, and every chat call uses
    the id it returned (a chat call happens when the history is
    non-empty and creation succeeded); on a history whose earliest
    session-carrying assistant message holds [id], no creation call
    happens and the chat call uses [id] verbatim.  Persisted states are
    mappings as in the data model. *)
Theorem session_created_iff_absent (E : env) (sid : nat) (msgs : list message)
    (ai : option string) tr r tr' :
  Forall state_wf msgs ->
  ums_response E sid msgs ai tr = (r, tr') ->
  (Forall no_session msgs ->
     exists ext, tr' = tr ++ EvCreateConversation :: ext /\
       ~ In EvCreateConversation ext /\
       (forall cid c, In (EvChatCall cid c) ext -> exists id, env_create E = inr id /\ cid = JStr id) /\
       (forall id, env_create E = inr id -> msgs <> [] -> exists c, In (EvChatCall (JStr id) c) ext)) /\
  (forall pre m post id,
     msgs = pre ++ m :: post -> Forall no_session pre -> persisted_session_id m = Some id ->
     exists ext, tr' = tr ++ ext /\ ~ In EvCreateConversation ext /\
       (forall cid c, In (EvChatCall cid c) ext -> cid = JStr id) /\
       exists c, In (EvChatCall (JStr id) c) ext).
Proof.
  intros Hwf Hrun; split.
  - intros Hn.
    pose proof (ums_response_fresh E sid msgs ai None tr r tr' (get_id_none msgs Hwf Hn)
                  eq_refl Hrun) as Hf.
    destruct (env_create E) as [e|id] eqn:Hc.
    + destruct Hf as [-> ->]. exists []; repeat split.
      * intros [].
      * intros cid c [].
      * intros id H; discriminate.
    + destruct (chat_phase_facts _ _ _ _ _ _ _ _ Hf) as (ext & -> & H1 & H2 & H3 & H4 & _).
      exists (EvSetState (JObj [(UMS_CONVERSATION_ID, JStr id)]) :: ext).
      rewrite <- app_assoc; repeat split.
      * intros [H|H]; [discriminate | contradiction].
      * intros cid c [H|H]; [discriminate|]. apply H3 in H as [-> _]; eauto.
      * intros id' H Hne; injection H; intros; subst.
        destruct (H4 Hne) as [u Hu]; exists u; right; exact Hu.
  - intros pre m post id -> Hn Hm.
    assert (Hwfpre : Forall state_wf pre) by (apply Forall_app in Hwf; tauto).
    pose proof (get_id_first_match pre post m id Hwfpre Hn Hm) as Hg.
    pose proof (ums_response_found E sid _ ai (JStr id) tr r tr' Hg eq_refl Hrun) as Hs.
    destruct (chat_phase_facts _ _ _ _ _ _ _ _ Hs) as (ext & -> & H1 & H2 & H3 & H4 & _).
    exists ext; repeat split; auto.
    + intros cid c H; now apply H3 in H as [-> _].
    + apply H4. destruct pre; discriminate.
Qed.

(** A first-turn and a follow-up history. *)
Definition user_msg (s : string) : message :=
  {| m_role := RUser; m_content := Some s; m_custom_content := None; m_name := None |}.

Definition assistant_with_session (s id : string) : message :=
  {| m_role := RAssistant; m_content := Some s;
     m_custom_content := Some {| cc_stages := None; cc_attachments := None;
                                 cc_state := Some (JObj [(UMS_CONVERSATION_ID, JStr id)]) |};
     m_name := None |}.

Definition test_env : env :=
  {| env_loads := loads_fragment;
     env_create := inr "conv-1";
     env_chat := fun _ _ => inr scenario_lines;
     env_classifier := fun _ => inr (dq "{'agent_name':'UMS'}");
     env_gpa := fun _ _ => inr ["ok"];
     env_synthesis := fun _ => inr [[Some "Hi"]; []; [Some "!"]] |}.

Definition followup_history : list message :=
  [user_msg "create user Alice"; assistant_with_session "Done." "conv-7"; user_msg "now list users"].

Lemma session_created_iff_absent_witness :
  Forall state_wf followup_history /\
  (exists r tr', ums_response test_env 1 followup_history None [] = (r, tr') /\
     exists ext, tr' = [] ++ ext /\ ~ In EvCreateConversation ext /\
       (forall cid c, In (EvChatCall cid c) ext -> cid = JStr "conv-7") /\
       exists c, In (EvChatCall (JStr "conv-7") c) ext).
Proof.
  assert (Hwf : Forall state_wf followup_history).
  { repeat constructor; unfold state_wf; simpl; intros; try discriminate.
    match goal with H : Some _ = Some _ |- _ => injection H; intros; subst end; simpl; exact I. }
  split; [exact Hwf|].
  exists (fst (ums_response test_env 1 followup_history None [])),
         (snd (ums_response test_env 1 followup_history None [])).
  split; [reflexivity|].
  apply (proj2 (session_created_iff_absent test_env 1 followup_history None []
                  (fst (ums_response test_env 1 followup_history None []))
                  (snd (ums_response test_env 1 followup_history None [])) Hwf eq_refl)
           [user_msg "create user Alice"] (assistant_with_session "Done." "conv-7")
           [user_msg "now list users"] "conv-7" eq_refl).
  - repeat constructor.
  - reflexivity.
Defined.

(* ------------------------------------------------------------------ *)
(** ** C3: which persisted session id is resolved *)

(** Two assistant turns, each persisting a different session id. *)
Definition two_sessions_history : list message :=
  [user_msg "create user Alice"; assistant_with_session "Done." "old";
   user_msg "list users"; assistant_with_session "Here they are." "new";
   user_msg "delete Alice"].

(** C3 (as stated, refuted): with two session-carrying assistant
    messages the resolution returns the earlier id, not the id of the
    most recent one. *)
Lemma most_recent_session_counterexample :
  persisted_session_id (assistant_with_session "Here they are." "new") = Some "new" /\
  get_ums_conversation_id two_sessions_history = inr (Some (JStr "old")).
Proof. split; reflexivity. Qed.

(** The per-message test of [__get_ums_conversation_id] lets the scan
    go on to the next message: not an assistant message, no custom
    content, no state or a falsy one, or a state for which
    [_UMS_CONVERSATION_ID in state] is false. *)
Definition lookup_skips (m : message) : bool :=
  match m_role m, m_custom_content m with
  | RAssistant, Some cc =>
      match cc_state cc with
      | Some st =>
          if py_truthy st then
            match py_contains UMS_CONVERSATION_ID st with inr false => true | _ => false end
          else true
      | None => true
      end
  | _, _ => true
  end.

Lemma get_id_skips (m : message) (rest : list message) :
  lookup_skips m = true -> get_ums_conversation_id (m :: rest) = get_ums_conversation_id rest.
Proof.
  unfold lookup_skips. destruct m as [r c cc n]; cbn [get_ums_conversation_id m_role m_custom_content].
  intros H; destruct r; try reflexivity.
  destruct cc as [cc|]; [|reflexivity].
  destruct (cc_state cc) as [st|]; [|reflexivity].
  destruct (py_truthy st); [|reflexivity].
  destruct (py_contains UMS_CONVERSATION_ID st) as [e|[|]]; try discriminate; reflexivity.
Qed.

(** C3 (amended): the resolution returns what the earliest assistant
    message carrying the key stores under it.  When the scan passes
    over every message before [m], and [m]'s state is a mapping binding
    the key to [v], the result is [v], whatever later messages hold:
    a string id, or JSON null (which the gateway then treats as no
    session). *)
Theorem earliest_session_id_resolved (pre post : list message) (m : message)
    (cc : custom_content) (kvs : list (string * json)) (v : json) :
  Forall (fun p => lookup_skips p = true) pre ->
  m_role m = RAssistant -> m_custom_content m = Some cc -> cc_state cc = Some (JObj kvs) ->
  dict_lookup UMS_CONVERSATION_ID kvs = Some v ->
  get_ums_conversation_id (pre ++ m :: post) = inr (Some v).
Proof.
  intros Hpre Hr Hc Hs Hl. induction Hpre as [|p pre Hp Hpre IH]; cbn [app].
  - cbn [get_ums_conversation_id]. rewrite Hr, Hc, Hs.
    destruct kvs as [|kv kvs]; [discriminate|]. cbn [py_truthy].
    unfold py_contains, py_getitem_str; rewrite Hl. reflexivity.
  - rewrite get_id_skips by exact Hp. exact IH.
Qed.

Lemma earliest_session_id_resolved_witness :
  get_ums_conversation_id two_sessions_history = inr (Some (JStr "old")).
Proof.
  apply (earliest_session_id_resolved [user_msg "create user Alice"]
           [user_msg "list users"; assistant_with_session "Here they are." "new";
            user_msg "delete Alice"]
           (assistant_with_session "Done." "old")
           {| cc_stages := None; cc_attachments := None;
              cc_state := Some (JObj [(UMS_CONVERSATION_ID, JStr "old")]) |}
           [(UMS_CONVERSATION_ID, JStr "old")] (JStr "old")).
  - repeat constructor.
  - reflexivity.
  - reflexivity.
  - reflexivity.
  - reflexivity.
Defined.

(* ------------------------------------------------------------------ *)
(** ** C9: the gateway's writes to the choice *)

Definition gateway_event (sid : nat) (e : event) : Prop :=
  e = EvCreateConversation \/ (exists st, e = EvSetState st) \/
  (exists c u, e = EvChatCall c u) \/ stage_event sid e.

Lemma get_error_run (E : env) (sid : nat) (msgs : list message) (ai : option string) e tr :
  get_ums_conversation_id msgs = inl e -> ums_response E sid msgs ai tr = (inl e, tr).
Proof. intros Hg. unfold ums_response, bind at 1, lift at 1. now rewrite Hg. Qed.

Lemma ums_response_gateway_events (E : env) (sid : nat) (msgs : list message)
    (ai : option string) tr r tr' :
  ums_response E sid msgs ai tr = (r, tr') ->
  exists ext, tr' = tr ++ ext /\ Forall (gateway_event sid) ext.
Proof.
  intros Hrun.
  destruct (get_ums_conversation_id msgs) as [e|found] eqn:Hg.
  + rewrite (get_error_run E sid msgs ai e tr Hg) in Hrun. injection Hrun; intros; subst.
    exists []; rewrite app_nil_r; auto.
  + destruct (is_none found) eqn:Hn.
    * pose proof (ums_response_fresh E sid msgs ai found tr r tr' Hg Hn Hrun) as Hf.
      destruct (env_create E) as [e|id].
      -- destruct Hf as [_ ->]. exists [EvCreateConversation]; split; [reflexivity|].
         repeat constructor.
      -- destruct (chat_phase_facts _ _ _ _ _ _ _ _ Hf) as (ext & -> & _ & _ & _ & _ & H6).
         exists (EvCreateConversation :: EvSetState (JObj [(UMS_CONVERSATION_ID, JStr id)]) :: ext).
         split; [now rewrite <- app_assoc|].
         constructor; [left; reflexivity|]. constructor; [right; left; eauto|].
         eapply Forall_impl; [|exact H6]; intros e [He|He]; unfold gateway_event; tauto.
    * destruct found as [v|]; [|discriminate].
      destruct (chat_phase_facts _ _ _ _ _ _ _ _ (ums_response_found E sid msgs ai v tr r tr' Hg Hn Hrun))
        as (ext & -> & _ & _ & _ & _ & H6).
      exists ext; split; [reflexivity|].
      eapply Forall_impl; [|exact H6]; intros e [He|He]; unfold gateway_event; tauto.
Qed.

(** C9: a run that resolves a prior session id writes no state; a
    first-turn run whose creation succeeds writes the single mapping
    [{ums_conversation_id: id}] right after the creation call and before
    the chat call, and none after; a failed creation writes nothing; and
    the gateway emits nothing but the creation call, state writes, the
    chat call and appends to its own stage. *)
Theorem session_state_written_only_on_creation (E : env) (sid : nat) (msgs : list message)
    (ai : option string) tr r tr' :
  ums_response E sid msgs ai tr = (r, tr') ->
  (forall v, get_ums_conversation_id msgs = inr (Some v) -> v <> JNull ->
     exists ext, tr' = tr ++ ext /\ forall st, ~ In (EvSetState st) ext) /\
  (forall found id, get_ums_conversation_id msgs = inr found -> is_none found = true ->
     env_create E = inr id ->
     exists ext,
       tr' = tr ++ EvCreateConversation
                 :: EvSetState (JObj [(UMS_CONVERSATION_ID, JStr id)]) :: ext /\
       (forall st, ~ In (EvSetState st) ext)) /\
  (forall found e, get_ums_conversation_id msgs = inr found -> is_none found = true ->
     env_create E = inl e -> tr' = tr ++ [EvCreateConversation]) /\
  (exists ext, tr' = tr ++ ext /\ Forall (gateway_event sid) ext).
Proof.
  intros Hrun. split; [|split; [|split]].
  - intros v Hg Hv.
    assert (Hn : is_none (Some v) = false) by (destruct v; simpl; congruence).
    destruct (chat_phase_facts _ _ _ _ _ _ _ _ (ums_response_found E sid msgs ai v tr r tr' Hg Hn Hrun))
      as (ext & -> & _ & H2 & _).
    exists ext; auto.
  - intros found id Hg Hn Hc.
    pose proof (ums_response_fresh E sid msgs ai found tr r tr' Hg Hn Hrun) as Hf.
    rewrite Hc in Hf.
    destruct (chat_phase_facts _ _ _ _ _ _ _ _ Hf) as (ext & -> & _ & H2 & _).
    exists ext; split; [now rewrite <- app_assoc | exact H2].
  - intros found e Hg Hn Hc.
    pose proof (ums_response_fresh E sid msgs ai found tr r tr' Hg Hn Hrun) as Hf.
    rewrite Hc in Hf. now destruct Hf.
  - now apply (ums_response_gateway_events E sid msgs ai tr r tr').
Qed.

Lemma session_state_written_only_on_creation_witness :
  exists ext,
    snd (ums_response test_env 1 [user_msg "create user Alice"] None [])
    = [] ++ EvCreateConversation
         :: EvSetState (JObj [(UMS_CONVERSATION_ID, JStr "conv-1")]) :: ext /\
    (forall st, ~ In (EvSetState st) ext).
Proof.
  apply (proj1 (proj2 (session_state_written_only_on_creation test_env 1
                         [user_msg "create user Alice"] None []
                         (fst (ums_response test_env 1 [user_msg "create user Alice"] None []))
                         (snd (ums_response test_env 1 [user_msg "create user Alice"] None []))
                         eq_refl))
           None "conv-1"); reflexivity.
Defined.

(* ------------------------------------------------------------------ *)
(** ** C10: the gateway needs a non-empty history *)

(** C10: on an empty message list the gateway never returns a message
    (when the session creation succeeds the failure is the [IndexError]
    of [messages[-1]]); on a non-empty list every chat call carries the
    last message's text, [""] when absent, followed by the additional
    context block when instructions are given. *)
Theorem response_requires_history :
  (forall (E : env) sid ai tr, exists e, fst (ums_response E sid [] ai tr) = inl e) /\
  (forall (E : env) sid ai tr id, env_create E = inr id ->
     fst (ums_response E sid [] ai tr) = inl IndexError) /\
  (forall (E : env) sid pre last ai tr r tr',
     ums_response E sid (pre ++ [last]) ai tr = (r, tr') ->
     exists ext, tr' = tr ++ ext /\
       forall cid c, In (EvChatCall cid c) ext ->
         let text := match m_content last with Some t => t | None => "" end in
         c = match ai with
             | Some i => if String.eqb i "" then text
                         else (text ++ nl ++ nl ++ "Additional context: " ++ i)%string
             | None => text
             end).
Proof.
  split; [|split].
  - intros E sid ai tr. unfold ums_response, bind at 1, lift at 1; simpl.
    unfold create_ums_conversation, bind, emit, lift.
    destruct (env_create E) as [e|id]; simpl; eauto.
  - intros E sid ai tr id Hc. unfold ums_response, bind at 1, lift at 1; simpl.
    unfold create_ums_conversation, bind, emit, lift. rewrite Hc; reflexivity.
  - intros E sid pre last ai tr r tr' Hrun.
    assert (Hspec : forall cid tr0,
               chat_phase_shape E sid (pre ++ [last]) ai cid tr0 r tr' ->
               exists ext, tr' = tr0 ++ ext /\
                 forall cid' c, In (EvChatCall cid' c) ext -> c = augment_user_content last ai).
    { intros cid tr0 Hs.
      destruct (chat_phase_facts _ _ _ _ _ _ _ _ Hs) as (ext & -> & _ & _ & H3 & _).
      exists ext; split; [reflexivity|].
      intros cid' c Hin. apply H3 in Hin as (_ & last' & Hl & ->).
      rewrite py_last_snoc in Hl; injection Hl; intros; subst; reflexivity. }
    assert (Hres : exists ext, tr' = tr ++ ext /\
              forall cid' c, In (EvChatCall cid' c) ext -> c = augment_user_content last ai).
    { destruct (get_ums_conversation_id (pre ++ [last])) as [e|found] eqn:Hg.
      - rewrite (get_error_run E sid _ ai e tr Hg) in Hrun. injection Hrun; intros; subst.
        exists []; rewrite app_nil_r; split; [reflexivity | intros ? ? []].
      - destruct (is_none found) eqn:Hn.
        + pose proof (ums_response_fresh E sid _ ai found tr r tr' Hg Hn Hrun) as Hf.
          destruct (env_create E) as [e|id].
          * destruct Hf as [_ ->]. exists [EvCreateConversation]; split; [reflexivity|].
            intros ? ? [H|[]]; discriminate.
          * destruct (Hspec _ _ Hf) as (ext & -> & Hc).
            exists (EvCreateConversation :: EvSetState (JObj [(UMS_CONVERSATION_ID, JStr id)]) :: ext).
            split; [now rewrite <- app_assoc|].
            intros cid' c [H|[H|H]]; [discriminate | discriminate | eauto].
        + destruct found as [v|]; [|discriminate].
          exact (Hspec _ _ (ums_response_found E sid _ ai v tr r tr' Hg Hn Hrun)). }
    destruct Hres as (ext & -> & Hc). exists ext; split; [reflexivity|].
    intros cid c Hin. rewrite (Hc cid c Hin).
    unfold augment_user_content, opt_truthy, or_empty.
    destruct ai as [i|]; [|reflexivity].
    destruct (String.eqb i ""); reflexivity.
Qed.

Lemma response_requires_history_witness :
  fst (ums_response test_env 1 [] None []) = inl IndexError /\
  (exists ext,
     snd (ums_response test_env 1 [user_msg "create user Alice"] None []) = [] ++ ext /\
     forall cid c, In (EvChatCall cid c) ext -> c = "create user Alice").
Proof.
  split.
  - exact (proj1 (proj2 response_requires_history) test_env 1 None [] "conv-1" eq_refl).
  - exact (proj2 (proj2 response_requires_history) test_env 1 [] (user_msg "create user Alice")
             None [] (fst (ums_response test_env 1 [user_msg "create user Alice"] None []))
             (snd (ums_response test_env 1 [user_msg "create user Alice"] None [])) eq_refl).
Defined.

Lemma accumulated_content_is_concatenation_witness :
  fst (call_ums_agent test_env (JStr "conv-1") "create user Alice" 1 []) = inr "Hello" /\
  "Hello" = String.concat "" (stream_fragments (env_loads test_env) scenario_lines) /\
  m_content (assistant_message "Hi!") = Some (String.concat "" (synthesis_fragments [[Some "Hi"]; []; [Some "!"]])).
Proof.
  split; [reflexivity|]. split.
  - apply (proj1 accumulated_content_is_concatenation test_env (JStr "conv-1")
             "create user Alice" 1 [] "Hello"
             (snd (call_ums_agent test_env (JStr "conv-1") "create user Alice" 1 [])));
      reflexivity.
  - apply (proj2 accumulated_content_is_concatenation test_env [user_msg "create user Alice"]
             (assistant_message "Hello") []
             (assistant_message "Hi!")
             (snd (final_response test_env [user_msg "create user Alice"] (assistant_message "Hello") [])));
      reflexivity.
Defined.

(* ------------------------------------------------------------------ *)
(** ** C4: non-content lines of the chat stream *)

(** An event the loop passes over: a mapping without [choices], or
    whose first choice is a mapping without a truthy [delta.content]. *)
Definition skipped_event (j : json) : Prop :=
  exists kvs, j = JObj kvs /\
  (dict_lookup "choices" kvs = None \/
   exists c rest, dict_lookup "choices" kvs = Some (JArr (JObj c :: rest)) /\
     (dict_lookup "delta" c = None \/
      exists d, dict_lookup "delta" c = Some (JObj d) /\
        (dict_lookup "content" d = None \/
         exists v, dict_lookup "content" d = Some v /\ py_truthy v = false))).

(** An event whose shape makes the loop raise. *)
Definition aborting_event (j : json) : Prop :=
  j = JNull \/ (exists b, j = JBool b) \/ (exists z, j = JNum z) \/
  (exists kvs, j = JObj kvs /\ dict_lookup "choices" kvs = Some (JArr [])).

(** C4 (as stated, refuted): the event [{"choices": []}] carries no
    content fragment, yet it aborts the stream with an [IndexError] and
    the content of the next line is never read. *)
Lemma empty_choices_aborts_counterexample :
  option_map content_fragment (loads_fragment (strip_data (dq "data: {'choices':[]}"))) = Some None /\
  read_lines loads_fragment 1 ""
    [dq "data: {'choices':[]}"; dq "data: {'choices':[{'delta':{'content':'x'}}]}"] []
  = (inl IndexError, []).
Proof. split; reflexivity. Qed.

Lemma handle_chunk_skipped (sid : nat) (acc : string) (j : json) (tr : list event) :
  skipped_event j -> handle_chunk sid acc j tr = (inr acc, tr).
Proof.
  intros (kvs & -> & H). unfold handle_chunk, bind, lift, py_contains, ret, raise.
  destruct H as [Hn | (c & rest & Hc & Hd)].
  - rewrite Hn; reflexivity.
  - rewrite Hc. unfold py_getitem_str; rewrite Hc. cbn [py_getitem_zero py_dict_get].
    destruct Hd as [Hd | (d & Hd & Hct)]; rewrite Hd; cbn [py_dict_get].
    + reflexivity.
    + destruct Hct as [Hct | (v & Hct & Hf)]; rewrite Hct; [reflexivity|].
      rewrite Hf; reflexivity.
Qed.

(** C4 (a defect of the loop): a blank line, a line that fails to
    parse as JSON, and a JSON event that is a mapping without [choices]
    (such as the session-id echo) or whose first choice is a mapping
    without a truthy [delta.content] are skipped: reading goes on with
    the next line, nothing appended.  But a JSON event that is [null], a
    boolean, a number, or a mapping whose [choices] list is empty makes
    the loop raise instead of skipping it, since [choices[0]] is read
    without a guard. *)
Theorem non_content_lines_skipped (loads : string -> option json) (sid : nat) :
  (forall acc rest tr, read_lines loads sid acc ("" :: rest) tr = read_lines loads sid acc rest tr) /\
  (forall line acc rest tr,
     line <> "" -> is_sentinel line = false ->
     (loads (strip_data line) = None \/
      exists j, loads (strip_data line) = Some j /\ skipped_event j) ->
     read_lines loads sid acc (line :: rest) tr = read_lines loads sid acc rest tr) /\
  (forall line acc rest tr j,
     line <> "" -> is_sentinel line = false ->
     loads (strip_data line) = Some j -> aborting_event j ->
     exists e, read_lines loads sid acc (line :: rest) tr = (inl e, tr)).
Proof.
  split; [|split].
  - intros; reflexivity.
  - intros line acc rest tr Hne Hs Hl. cbn [read_lines].
    apply String.eqb_neq in Hne; rewrite Hne. unfold is_sentinel in Hs; rewrite Hs.
    destruct Hl as [-> | (j & -> & Hj)]; [reflexivity|].
    unfold bind at 1; rewrite (handle_chunk_skipped sid acc j tr Hj); reflexivity.
  - intros line acc rest tr j Hne Hs Hl Hj. cbn [read_lines].
    apply String.eqb_neq in Hne; rewrite Hne. unfold is_sentinel in Hs; rewrite Hs.
    rewrite Hl. unfold bind at 1, handle_chunk, bind, lift.
    destruct Hj as [-> | [(b & ->) | [(z & ->) | (kvs & -> & Hc)]]];
      try (eexists; reflexivity).
    unfold py_contains, py_getitem_str; rewrite Hc; cbn. eexists; reflexivity.
Qed.

Lemma non_content_lines_skipped_witness :
  read_lines loads_fragment 1 "" scenario_lines []
  = read_lines loads_fragment 1 "" (firstn 2 scenario_lines ++ skipn 3 scenario_lines) [] /\
  read_lines loads_fragment 1 "" [dq "data: {'conversation_id':'abc'}"; "data: [DONE]"] []
  = read_lines loads_fragment 1 "" ["data: [DONE]"] [].
Proof.
  split; [reflexivity|].
  apply (proj1 (proj2 (non_content_lines_skipped loads_fragment 1))).
  - discriminate.
  - reflexivity.
  - right. exists (JObj [("conversation_id", JStr "abc")]). split; [reflexivity|].
    exists [("conversation_id", JStr "abc")]; split; [reflexivity|]. left; reflexivity.
Defined.

(* ------------------------------------------------------------------ *)
(** ** The coordinator's stage opens and closes *)

Definition is_stage_op (e : event) : bool :=
  match e with EvOpenStage _ _ | EvCloseStage _ => true | _ => false end.

(** The opens and closes of a trace, in order. *)
Definition stage_ops (tr : list event) : list event := filter is_stage_op tr.

Lemma stage_ops_app (a b : list event) : stage_ops (a ++ b) = stage_ops a ++ stage_ops b.
Proof. unfold stage_ops; apply filter_app. Qed.

Lemma count_opens_app (a b : list event) : count_opens (a ++ b) = count_opens a + count_opens b.
Proof. unfold count_opens; now rewrite filter_app, length_app. Qed.

Lemma no_ops_no_opens (ext : list event) : stage_ops ext = [] -> count_opens ext = 0.
Proof.
  induction ext as [|e ext IH]; [reflexivity|].
  unfold stage_ops, count_opens in *; simpl; destruct e; simpl; try discriminate; auto.
Qed.

Lemma forall_no_ops (P : event -> Prop) (ext : list event) :
  (forall e, P e -> is_stage_op e = false) -> Forall P ext -> stage_ops ext = [].
Proof.
  intros HP Hf; induction Hf as [|e ext He Hf IH]; [reflexivity|].
  unfold stage_ops in *; simpl; rewrite (HP e He); exact IH.
Qed.

Lemma bind_inv {A B} (m : M A) (f : A -> M B) tr r tr' :
  bind m f tr = (r, tr') ->
  (exists e, m tr = (inl e, tr') /\ r = inl e) \/
  (exists a t, m tr = (inr a, t) /\ f a t = (r, tr')).
Proof.
  unfold bind. destruct (m tr) as [[e|a] t]; intros H.
  - left; injection H; intros; subst; eauto.
  - right; eauto.
Qed.

Lemma lift_inv {A} (x : py_result A) tr r tr' :
  lift x tr = (r, tr') -> r = x /\ tr' = tr.
Proof. destruct x; simpl; unfold raise, ret; intros H; injection H; intros; subst; auto. Qed.

Lemma prepare_coordination_request_trace (E : env) (msgs : list message) tr r tr' :
  prepare_coordination_request E msgs tr = (r, tr') ->
  tr' = tr ++ [EvClassifierCall (prepare_messages msgs COORDINATION_REQUEST_SYSTEM_PROMPT)].
Proof.
  unfold prepare_coordination_request, bind at 1, emit at 1.
  intros H; apply bind_inv in H as [(e & H & _) | (content & t & H & Hk)].
  - now apply lift_inv in H as [_ ->].
  - apply lift_inv in H as [_ ->].
    apply bind_inv in Hk as [(e & H & _) | (d & t & H & Hk)].
    + destruct (env_loads E content); unfold ret, raise in H; injection H; intros; subst; auto.
    + destruct (env_loads E content); unfold ret, raise in H; injection H; intros; subst;
        [now apply lift_inv in Hk as [_ ->] | discriminate].
Qed.

Lemma stage_append_all_trace (sid : nat) (frags : list string) : forall tr,
  snd (stage_append_all sid frags tr) = tr ++ map (EvStageAppend sid) frags /\
  fst (stage_append_all sid frags tr) = inr tt.
Proof.
  induction frags as [|f frags IH]; intros tr; simpl.
  - rewrite app_nil_r; auto.
  - unfold bind, emit. destruct (IH (tr ++ [EvStageAppend sid f])) as [H1 H2].
    destruct (stage_append_all sid frags (tr ++ [EvStageAppend sid f])) as [r t]; simpl in *.
    subst; rewrite <- app_assoc; auto.
Qed.

Lemma handle_coordination_request_trace (E : env) (cr : coordination_request) (sid : nat)
    (msgs : list message) tr r tr' :
  handle_coordination_request E cr sid msgs tr = (r, tr') ->
  exists ext, tr' = tr ++ EvGatewayInvoke (cr_agent_name cr) :: ext /\ stage_ops ext = [].
Proof.
  unfold handle_coordination_request, bind at 1, emit at 1.
  destruct (cr_agent_name cr).
  - unfold gpa_response. intros H; apply bind_inv in H as [(e & H & _) | (frags & t & H & Hk)].
    + apply lift_inv in H as [_ ->]. exists []; auto.
    + apply lift_inv in H as [_ ->]. unfold bind in Hk.
      destruct (stage_append_all_trace sid frags (tr ++ [EvGatewayInvoke GPA])) as [H1 H2].
      destruct (stage_append_all sid frags (tr ++ [EvGatewayInvoke GPA])) as [r1 t1].
      simpl in H1, H2; subst. unfold ret in Hk; injection Hk; intros; subst.
      exists (map (EvStageAppend sid) frags); rewrite <- app_assoc; split; [reflexivity|].
      clear; induction frags; [reflexivity | exact IHfrags].
  - intros H. apply ums_response_gateway_events in H as (ext & -> & Hf).
    exists ext; rewrite <- app_assoc; split; [reflexivity|].
    eapply forall_no_ops; [|exact Hf].
    intros e [->|[(st & ->)|[(c & u & ->)|(s & ->)]]]; reflexivity.
Qed.

Lemma final_response_trace (E : env) (msgs : list message) (agent_message : message) tr r tr' :
  final_response E msgs agent_message tr = (r, tr') ->
  exists ext, tr' = tr ++ ext /\ stage_ops ext = [].
Proof.
  unfold final_response, bind at 1, emit at 1.
  intros H; apply bind_inv in H as [(e & H & _) | (chunks & t & H & Hk)].
  - apply lift_inv in H as [_ ->]. exists [EvSynthesisCall (augment_last (prepare_messages msgs FINAL_RESPONSE_SYSTEM_PROMPT) agent_message)]; auto.
  - apply lift_inv in H as [_ ->]. unfold bind in Hk.
    destruct (read_chunks_spec E chunks ""
                (tr ++ [EvSynthesisCall (augment_last (prepare_messages msgs FINAL_RESPONSE_SYSTEM_PROMPT) agent_message)]))
      as (ext & Hr & Hf & _).
    rewrite Hr in Hk; unfold ret in Hk; injection Hk; intros; subst.
    eexists; rewrite <- app_assoc; split; [reflexivity|].
    simpl; f_equal. eapply forall_no_ops; [|exact Hf]. intros e (s & ->); reflexivity.
Qed.

Lemma emit_inv (e : event) tr r tr' : emit e tr = (r, tr') -> r = inr tt /\ tr' = tr ++ [e].
Proof. unfold emit; intros H; injection H; auto. Qed.

Lemma open_stage_inv (name : string) tr r tr' :
  open_stage name tr = (r, tr') -> r = inr (count_opens tr) /\ tr' = tr ++ [EvOpenStage (count_opens tr) name].
Proof. unfold open_stage; intros H; injection H; auto. Qed.

(* ------------------------------------------------------------------ *)
(** ** C5: stage surfaces on success and on abort *)

Definition coordination_stage_name : string := "🧭 Coordination".

(** C5 (as stated, refuted): when the classifier returns text that is
    not JSON, the run aborts with the coordination stage opened and
    never closed. *)
Definition not_json_env : env :=
  {| env_loads := loads_fragment;
     env_create := inr "conv-1";
     env_chat := fun _ _ => inr scenario_lines;
     env_classifier := fun _ => inr "not json";
     env_gpa := fun _ _ => inr ["ok"];
     env_synthesis := fun _ => inr [[Some "Hi"]] |}.

Lemma coordination_stage_left_open_counterexample :
  fst (handle_request not_json_env [user_msg "create user Alice"] []) = inl JSONDecodeError /\
  stage_ops (snd (handle_request not_json_env [user_msg "create user Alice"] []))
  = [EvOpenStage 0 coordination_stage_name].
Proof. split; reflexivity. Qed.

Definition agent_stage_name (cr : coordination_request) : string :=
  ("🤖 " ++ agent_name_str (cr_agent_name cr) ++ " Agent")%string.

(** C5 (amended): closing never raises.  A run goes one of three ways,
    and in each its result and final trace are those of the step it
    stopped in, so nothing (no close in particular) follows an abort:
    (a) routing raises: the run raises that error with only the
        coordination stage opened, never closed;
    (b) delegation raises: the run raises that error after the
        coordination stage was closed once and the agent stage opened,
        which is left open;
    (c) delegation succeeds: both stages have been opened and closed,
        each once, and the run's result is the synthesis step's, an
        error when synthesis aborts, the reply when the run completes. *)
Theorem stage_surfaces_on_success_and_abort :
  (forall sid tr, fst (close_stage_safely sid tr) = inr tt) /\
  (forall (E : env) (msgs : list message) r tr',
     handle_request E msgs [] = (r, tr') ->
     (exists e,
        prepare_coordination_request E msgs [EvOpenStage 0 coordination_stage_name] = (inl e, tr') /\
        r = inl e /\
        stage_ops tr' = [EvOpenStage 0 coordination_stage_name]) \/
     (exists cr t e,
        prepare_coordination_request E msgs [EvOpenStage 0 coordination_stage_name] = (inr cr, t) /\
        handle_coordination_request E cr 1 msgs
          (t ++ [EvStageAppend 0 (routing_text cr); EvCloseStage 0;
                 EvOpenStage 1 (agent_stage_name cr)]) = (inl e, tr') /\
        r = inl e /\
        stage_ops tr' = [EvOpenStage 0 coordination_stage_name; EvCloseStage 0;
                         EvOpenStage 1 (agent_stage_name cr)]) \/
     (exists cr t am t',
        prepare_coordination_request E msgs [EvOpenStage 0 coordination_stage_name] = (inr cr, t) /\
        handle_coordination_request E cr 1 msgs
          (t ++ [EvStageAppend 0 (routing_text cr); EvCloseStage 0;
                 EvOpenStage 1 (agent_stage_name cr)]) = (inr am, t') /\
        final_response E msgs am (t' ++ [EvCloseStage 1]) = (r, tr') /\
        stage_ops tr' = [EvOpenStage 0 coordination_stage_name; EvCloseStage 0;
                         EvOpenStage 1 (agent_stage_name cr); EvCloseStage 1])).
Proof.
  split; [intros; reflexivity|].
  intros E msgs r tr' H0. unfold handle_request in H0.
  apply bind_inv in H0 as [(e & H & _) | (c0 & t0 & H & Hk)];
    apply open_stage_inv in H as [Hr0 ->]; [discriminate|]. injection Hr0 as ->.
  cbn [count_opens filter length app] in Hk.
  apply bind_inv in Hk as [(e & H & ->) | (cr & t1 & H & Hk)].
  - left. exists e. split; [exact H|]. split; [reflexivity|].
    apply prepare_coordination_request_trace in H; subst; reflexivity.
  - pose proof H as Ht1; apply prepare_coordination_request_trace in Ht1; subst t1.
    apply bind_inv in Hk as [(e & H2 & _) | (u1 & t2 & H2 & Hk)];
      apply emit_inv in H2 as [Hu ->]; [discriminate|clear Hu].
    apply bind_inv in Hk as [(e & H3 & _) | (u2 & t3 & H3 & Hk)];
      unfold close_stage_safely in H3; apply emit_inv in H3 as [Hu ->]; [discriminate|clear Hu].
    apply bind_inv in Hk as [(e & H4 & _) | (c1 & t4 & H4 & Hk)];
      apply open_stage_inv in H4 as [Hr4 ->]; [discriminate|]. injection Hr4 as ->.
    cbn [count_opens filter length app] in Hk.
    change (("🤖 " ++ agent_name_str (cr_agent_name cr) ++ " Agent")%string) with (agent_stage_name cr) in Hk.
    cbn [app] in Hk.
    apply bind_inv in Hk as [(e & H5 & ->) | (am & t5 & H5 & Hk)].
    + right; left. exists cr, ([EvOpenStage 0 coordination_stage_name] ++
        [EvClassifierCall (prepare_messages msgs COORDINATION_REQUEST_SYSTEM_PROMPT)]), e.
      split; [exact H|]. split; [exact H5|]. split; [reflexivity|].
      apply handle_coordination_request_trace in H5 as (ext & -> & Hext).
      unfold stage_ops in *; rewrite filter_app; cbn; rewrite Hext; reflexivity.
    + apply bind_inv in Hk as [(e & H6 & _) | (u3 & t6 & H6 & Hk)];
        unfold close_stage_safely in H6; apply emit_inv in H6 as [Hu ->]; [discriminate|clear Hu].
      right; right. exists cr, ([EvOpenStage 0 coordination_stage_name] ++
        [EvClassifierCall (prepare_messages msgs COORDINATION_REQUEST_SYSTEM_PROMPT)]), am, t5.
      split; [exact H|]. split; [exact H5|]. split; [exact Hk|].
      apply handle_coordination_request_trace in H5 as (ext & -> & Hext).
      apply final_response_trace in Hk as (ext' & -> & Hext').
      unfold stage_ops in *; rewrite !filter_app; cbn; rewrite Hext, Hext'; reflexivity.
Qed.

Lemma stage_surfaces_on_success_and_abort_witness :
  stage_ops (snd (handle_request test_env [user_msg "create user Alice"] []))
  = [EvOpenStage 0 coordination_stage_name; EvCloseStage 0;
     EvOpenStage 1 (agent_stage_name {| cr_agent_name := UMS; cr_additional_instructions := None |});
     EvCloseStage 1].
Proof.
  destruct (proj2 stage_surfaces_on_success_and_abort test_env [user_msg "create user Alice"]
              (fst (handle_request test_env [user_msg "create user Alice"] []))
              (snd (handle_request test_env [user_msg "create user Alice"] [])) eq_refl)
    as [(e & _ & He & _) | [(cr & t & e & _ & _ & He & _) | (cr & t & am & t' & Hp & _ & _ & Hs)]].
  - vm_compute in He; discriminate.
  - vm_compute in He; discriminate.
  - vm_compute in Hp. injection Hp as <- _. exact Hs.
Defined.

(* ------------------------------------------------------------------ *)
(** ** C6: an unusable routing decision aborts before any gateway *)

(** C6: when the classifier's text does not parse as JSON, or parses
    to a value that fails the decision schema, the run raises that
    error right after the single classifier call: no gateway, session
    creation or chat call, no second classifier call, no default
    route. *)
Theorem invalid_decision_aborts_before_gateways (E : env) (msgs : list message) (content : string) :
  env_classifier E (prepare_messages msgs COORDINATION_REQUEST_SYSTEM_PROMPT) = inr content ->
  (env_loads E content = None ->
     handle_request E msgs []
     = (inl JSONDecodeError,
        [EvOpenStage 0 coordination_stage_name;
         EvClassifierCall (prepare_messages msgs COORDINATION_REQUEST_SYSTEM_PROMPT)])) /\
  (forall d e, env_loads E content = Some d -> model_validate d = inl e ->
     handle_request E msgs []
     = (inl e,
        [EvOpenStage 0 coordination_stage_name;
         EvClassifierCall (prepare_messages msgs COORDINATION_REQUEST_SYSTEM_PROMPT)])).
Proof.
  intros Hc; split.
  - intros Hl. unfold handle_request, open_stage, prepare_coordination_request, bind, emit, lift.
    cbn [count_opens filter length app].
    rewrite Hc; unfold ret, raise; rewrite Hl; reflexivity.
  - intros d e Hl Hv. unfold handle_request, open_stage, prepare_coordination_request, bind, emit, lift.
    cbn [count_opens filter length app].
    rewrite Hc; unfold ret, raise; rewrite Hl, Hv; reflexivity.
Qed.

Lemma invalid_decision_aborts_before_gateways_witness :
  handle_request not_json_env [user_msg "create user Alice"] []
  = (inl JSONDecodeError,
     [EvOpenStage 0 coordination_stage_name;
      EvClassifierCall (prepare_messages [user_msg "create user Alice"] COORDINATION_REQUEST_SYSTEM_PROMPT)]).
Proof.
  apply (proj1 (invalid_decision_aborts_before_gateways not_json_env [user_msg "create user Alice"]
                  "not json" eq_refl)).
  reflexivity.
Defined.

(* ------------------------------------------------------------------ *)
(** ** C7: the message adapter *)

Definition empty_assistant : message :=
  {| m_role := RAssistant; m_content := Some ""; m_custom_content := None; m_name := None |}.

(** C7 (as stated, refuted): an assistant message with an empty
    content is forwarded with its empty [content] field. *)
Lemma empty_field_forwarded_counterexample :
  nth_error (prepare_messages [empty_assistant] "You route requests.") 1
  = Some [("role", JStr "assistant"); ("content", JStr "")].
Proof. reflexivity. Qed.

Definition message_fields : list string := ["role"; "content"; "custom_content"; "name"].

(** C7 (amended): the output starts with the system entry carrying the
    prompt and then has one entry per history message, in order; a user
    message with custom content becomes exactly its role and text
    ([""] when absent), with no attachments or state; any other message
    is its field dump in which only the fields that are [None] are
    left out (empty strings and lists are kept). *)
Theorem message_adapter_shape (msgs : list message) (system_prompt : string) :
  let out := prepare_messages msgs system_prompt in
  hd_error out = Some [("role", JStr "system"); ("content", JStr system_prompt)] /\
  length out = S (length msgs) /\
  forall i m, nth_error msgs i = Some m ->
    (m_role m = RUser -> m_custom_content m <> None ->
       nth_error out (S i)
       = Some [("role", JStr "user");
               ("content", JStr (match m_content m with Some t => t | None => "" end))]) /\
    (~ (m_role m = RUser /\ m_custom_content m <> None) ->
       exists d, nth_error out (S i) = Some d /\
         dict_lookup "role" d = Some (JStr (role_str (m_role m))) /\
         dict_lookup "content" d = option_map JStr (m_content m) /\
         dict_lookup "custom_content" d = option_map custom_content_dict (m_custom_content m) /\
         dict_lookup "name" d = option_map JStr (m_name m) /\
         (forall k v, In (k, v) d -> In k message_fields)).
Proof.
  intros out; unfold out, prepare_messages; split; [reflexivity|].
  split; [simpl; now rewrite length_map|].
  intros i m Hi; simpl nth_error; rewrite nth_error_map, Hi; simpl option_map.
  split.
  - intros Hr Hc. unfold adapt_message; rewrite Hr.
    destruct (m_custom_content m); [reflexivity | now contradiction Hc].
  - intros Hn. exists (message_dict m).
    split.
    + f_equal. unfold adapt_message.
      destruct (m_role m); try reflexivity.
      destruct (m_custom_content m); [|reflexivity].
      exfalso; apply Hn; split; [reflexivity | discriminate].
    + unfold message_dict.
      destruct (m_content m), (m_custom_content m), (m_name m);
        cbn [opt_field app dict_lookup String.eqb]; simpl;
        repeat split; try reflexivity;
        intros k v Hin; simpl in Hin; unfold message_fields;
        repeat (destruct Hin as [Hin|Hin]; [injection Hin; intros; subst; simpl; tauto|]);
        contradiction.
Qed.

Lemma message_adapter_shape_witness :
  exists d, nth_error (prepare_messages [empty_assistant] "You route requests.") 1 = Some d /\
    dict_lookup "content" d = Some (JStr "").
Proof.
  destruct (proj2 (proj2 (message_adapter_shape [empty_assistant] "You route requests."))
              0 empty_assistant eq_refl) as [_ H].
  destruct H as (d & Hd & _ & Hc & _).
  - intros [Hr _]; discriminate.
  - exists d; split; [exact Hd | exact Hc].
Defined.

(* ------------------------------------------------------------------ *)
(** ** C8: the synthesis stage *)

Lemma dict_set_same (k : string) (v : json) (d : dict) : dict_lookup k (dict_set k v d) = Some v.
Proof.
  induction d as [|[k' v'] d IH]; simpl; [now rewrite String.eqb_refl|].
  destruct (String.eqb k k') eqn:E; simpl; rewrite E; [reflexivity | exact IH].
Qed.

Lemma dict_set_other (k k2 : string) (v : json) (d : dict) :
  k2 <> k -> dict_lookup k2 (dict_set k v d) = dict_lookup k2 d.
Proof.
  intros Hne. induction d as [|[k' v'] d IH]; simpl.
  - apply String.eqb_neq in Hne; rewrite Hne; reflexivity.
  - destruct (String.eqb k k') eqn:E; simpl.
    + apply String.eqb_eq in E; subst.
      apply String.eqb_neq in Hne; rewrite Hne; reflexivity.
    + destruct (String.eqb k2 k'); [reflexivity | exact IH].
Qed.

Lemma augment_last_snoc (before : list dict) (last_msg : dict) (agent_message : message) :
  augment_last (before ++ [last_msg]) agent_message
  = before ++ [dict_set "content"
                 (JStr (augmented_content
                          (content_text (match dict_lookup "content" last_msg with
                                         | Some v => v | None => JStr "" end))
                          agent_message)) last_msg].
Proof. unfold augment_last. rewrite rev_app_distr; simpl. now rewrite rev_involutive. Qed.

(** C8: the synthesis call receives the adapted messages with every
    entry but the last unchanged and the last one's [content] replaced
    by the two-section text (original content, [""] when absent, under
    "## Original User Request", then the agent's answer under
    "## Agent Response"), its other fields unchanged; after the call the
    stage only appends to the caller-facing channel, and the returned
    assistant message's content is exactly what was appended there. *)
Theorem synthesis_composite_and_result (E : env) (msgs : list message) (agent_message : message)
    tr r tr' :
  final_response E msgs agent_message tr = (r, tr') ->
  exists before la ls ext,
    prepare_messages msgs FINAL_RESPONSE_SYSTEM_PROMPT = before ++ [la] /\
    tr' = tr ++ EvSynthesisCall (before ++ [ls]) :: ext /\
    dict_lookup "content" ls
    = Some (JStr ("## Original User Request" ++ nl
                  ++ match dict_lookup "content" la with Some (JStr t) => t | _ => "" end
                  ++ nl ++ nl ++ "## Agent Response" ++ nl
                  ++ match m_content agent_message with Some t => t | None => "" end)%string) /\
    (forall k, k <> "content" -> dict_lookup k ls = dict_lookup k la) /\
    Forall choice_event ext /\
    (forall m, r = inr m -> m_role m = RAssistant /\ m_content m = Some (choice_text ext)).
Proof.
  assert (Hne : prepare_messages msgs FINAL_RESPONSE_SYSTEM_PROMPT <> []) by discriminate.
  destruct (exists_last Hne) as (before & la & Hsplit).
  set (ls := dict_set "content"
               (JStr (augmented_content
                        (content_text (match dict_lookup "content" la with
                                       | Some v => v | None => JStr "" end))
                        agent_message)) la).
  assert (Haug : augment_last (prepare_messages msgs FINAL_RESPONSE_SYSTEM_PROMPT) agent_message
                 = before ++ [ls]) by (rewrite Hsplit; apply augment_last_snoc).
  intros H. unfold final_response in H. rewrite Haug in H.
  apply bind_inv in H as [(e & H & ->) | (u & t & H & Hk)];
    apply emit_inv in H as [Hu ->]; [discriminate|clear Hu].
  apply bind_inv in Hk as [(e & H & ->) | (chunks & t & H & Hk)];
    apply lift_inv in H as [Hc ->].
  - exists before, la, ls, []. repeat split; try exact Hsplit; try reflexivity; try constructor.
    all: try (unfold ls; rewrite dict_set_same; unfold augmented_content, content_text, or_empty;
              destruct (dict_lookup "content" la) as [[]|]; reflexivity).
    all: try (intros k0 Hk0; unfold ls; now apply dict_set_other).
    all: discriminate.
  - destruct (read_chunks_spec E chunks "" (tr ++ [EvSynthesisCall (before ++ [ls])]))
      as (ext & Hr & Hf & Ht).
    unfold bind in Hk; rewrite Hr in Hk; unfold ret in Hk; injection Hk; intros; subst.
    exists before, la, ls, ext. repeat split; try exact Hsplit; try exact Hf.
    all: try (rewrite <- app_assoc; reflexivity).
    all: try (unfold ls; rewrite dict_set_same; unfold augmented_content, content_text, or_empty;
              destruct (dict_lookup "content" la) as [[]|]; reflexivity).
    all: try (intros k0 Hk0; unfold ls; now apply dict_set_other).
    all: match goal with Hm : inr _ = inr _ |- _ => injection Hm; intros; subst end.
    all: simpl; try reflexivity; now rewrite Ht.
Qed.

Lemma synthesis_composite_and_result_witness :
  exists before la ls ext,
    prepare_messages [user_msg "create user Alice"] FINAL_RESPONSE_SYSTEM_PROMPT = before ++ [la] /\
    snd (final_response test_env [user_msg "create user Alice"] (assistant_message "Created.") [])
    = [] ++ EvSynthesisCall (before ++ [ls]) :: ext /\
    choice_text ext = "Hi!".
Proof.
  destruct (synthesis_composite_and_result test_env [user_msg "create user Alice"]
              (assistant_message "Created.") []
              (fst (final_response test_env [user_msg "create user Alice"] (assistant_message "Created.") []))
              (snd (final_response test_env [user_msg "create user Alice"] (assistant_message "Created.") []))
              eq_refl)
    as (before & la & ls & ext & H1 & H2 & _ & _ & _ & H6).
  exists before, la, ls, ext. split; [exact H1|]. split; [exact H2|].
  destruct (H6 _ eq_refl) as [_ Hc].
  match type of Hc with ?l = _ => assert (Hv : l = Some "Hi!") by (vm_compute; reflexivity) end.
  rewrite Hc in Hv. injection Hv; intros; assumption.
Defined.

(* ------------------------------------------------------------------ *)
(** ** Further properties of the stream loops, the session lookup and the run *)

Lemma prefix_app (p l : string) : String.prefix p l = true -> exists r, l = (p ++ r)%string.
Proof.
  revert l; induction p as [|a p IH]; intros l H.
  - exists l; reflexivity.
  - destruct l as [|b l]; simpl in H; [discriminate|].
    destruct (ascii_dec a b) as [->|]; [|discriminate].
    destruct (IH l H) as [r ->]. exists r; reflexivity.
Qed.

Lemma substring_all (r : string) : substring 0 (String.length r) r = r.
Proof. induction r as [|c r IH]; simpl; [reflexivity | now rewrite IH]. Qed.

Lemma substring_app (p r : string) :
  substring (String.length p) (String.length r) (p ++ r) = r.
Proof. induction p as [|c p IH]; simpl; [apply substring_all | exact IH]. Qed.

Lemma string_length_app (p r : string) :
  String.length (p ++ r) = String.length p + String.length r.
Proof. induction p as [|c p IH]; simpl; congruence. Qed.

Lemma prefix_self (p r : string) : String.prefix p (p ++ r) = true.
Proof.
  induction p as [|a p IH]; simpl; [destruct r; reflexivity|].
  destruct (ascii_dec a a) as [_|n]; [exact IH | now contradiction n].
Qed.

Lemma strip_data_prefixed (r : string) : strip_data ("data: " ++ r) = r.
Proof.
  unfold strip_data. rewrite prefix_self.
  rewrite string_length_app.
  change (String.length "data: ") with 6.
  replace (6 + String.length r - 6) with (String.length r) by lia.
  exact (substring_app "data: " r).
Qed.

(** The chat loop stops at a line exactly when the line is [[DONE]] or
    [data: [DONE]]: [strip_data] removes one [data: ] prefix and nothing
    else, so [data:[DONE]] or [ [DONE]] do not end the stream. *)
Theorem done_line_forms (line : string) :
  strip_data line = "[DONE]" <-> line = "[DONE]" \/ line = "data: [DONE]".
Proof.
  split.
  - destruct (String.prefix "data: " line) eqn:Hp.
    + destruct (prefix_app _ _ Hp) as [r ->].
      rewrite strip_data_prefixed. intros ->; right; reflexivity.
    + unfold strip_data; rewrite Hp. intros ->; left; reflexivity.
  - intros [-> | ->]; reflexivity.
Qed.

(** Everything after a terminating line is never read: the loop over
    [before ++ line :: after] behaves as the loop over [before] alone. *)
Theorem stream_ignores_lines_after_done (loads : string -> option json) (sid : nat)
    (before after : list string) (line : string) :
  strip_data line = "[DONE]" ->
  forall acc tr,
  read_lines loads sid acc (before ++ line :: after) tr = read_lines loads sid acc before tr.
Proof.
  intros Hd. induction before as [|l before IH]; intros acc tr; cbn [app read_lines].
  - destruct (String.eqb line "") eqn:Hb.
    + apply String.eqb_eq in Hb; subst; discriminate.
    + rewrite Hd; reflexivity.
  - destruct (String.eqb l ""); [apply IH|].
    destruct (String.eqb (strip_data l) "[DONE]"); [reflexivity|].
    destruct (loads (strip_data l)) as [j|]; [|apply IH].
    unfold bind. destruct (handle_chunk sid acc j tr) as [[e|a] t]; [reflexivity | apply IH].
Qed.

(** Reading a stream in two parts: when the first part has no
    terminating line, reading the whole stream is reading the first part
    and then the second part from the content accumulated so far. *)
Theorem stream_lines_compose (loads : string -> option json) (sid : nat)
    (l1 l2 : list string) :
  Forall (fun l => strip_data l <> "[DONE]") l1 ->
  forall acc tr,
  read_lines loads sid acc (l1 ++ l2) tr
  = (acc' <- read_lines loads sid acc l1 ;; read_lines loads sid acc' l2) tr.
Proof.
  intros Hf. induction Hf as [|l l1 Hl Hf IH]; intros acc tr; cbn [app read_lines].
  - reflexivity.
  - destruct (String.eqb l ""); [apply IH|].
    apply String.eqb_neq in Hl; rewrite Hl.
    destruct (loads (strip_data l)) as [j|]; [|apply IH].
    unfold bind at 1 2 3. destruct (handle_chunk sid acc j tr) as [[e|a] t]; [reflexivity | apply IH].
Qed.

Definition nonempty_append (sid : nat) (e : event) : Prop :=
  exists t, t <> "" /\ e = EvStageAppend sid t.

Fixpoint stage_text (sid : nat) (tr : list event) : string :=
  match tr with
  | [] => ""
  | EvStageAppend s t :: rest => if Nat.eqb s sid then (t ++ stage_text sid rest)%string else stage_text sid rest
  | _ :: rest => stage_text sid rest
  end.

Lemma handle_chunk_cases (sid : nat) (acc : string) (j : json) (tr : list event) r tr' :
  handle_chunk sid acc j tr = (r, tr') ->
  (r = inr acc /\ tr' = tr) \/
  (exists t, t <> "" /\ r = inr (acc ++ t)%string /\ tr' = tr ++ [EvStageAppend sid t]) \/
  (exists e, r = inl e /\ tr' = tr).
Proof.
  unfold handle_chunk.
  intros H; apply bind_inv in H as [(e & H & ->) | (has & t & H & Hk)];
    [apply lift_inv in H as [? ->]; eauto |].
  apply lift_inv in H as [_ ->].
  destruct has; [| unfold ret in Hk; injection Hk; intros; subst; auto].
  apply bind_inv in Hk as [(e & H & ->) | (choices & t & H & Hk)];
    [apply lift_inv in H as [? ->]; eauto | apply lift_inv in H as [_ ->]].
  apply bind_inv in Hk as [(e & H & ->) | (first & t & H & Hk)];
    [apply lift_inv in H as [? ->]; eauto | apply lift_inv in H as [_ ->]].
  apply bind_inv in Hk as [(e & H & ->) | (delta & t & H & Hk)];
    [apply lift_inv in H as [? ->]; eauto | apply lift_inv in H as [_ ->]].
  apply bind_inv in Hk as [(e & H & ->) | (content & t & H & Hk)];
    [apply lift_inv in H as [? ->]; eauto | apply lift_inv in H as [_ ->]].
  destruct (py_truthy content) eqn:Ht; [| unfold ret in Hk; injection Hk; intros; subst; auto].
  apply bind_inv in Hk as [(e & H & ->) | (acc' & t & H & Hk)];
    [apply lift_inv in H as [? ->]; eauto | apply lift_inv in H as [Hi ->]].
  symmetry in Hi; apply py_str_iadd_inv in Hi as (s & -> & ->).
  unfold bind, emit, ret in Hk; injection Hk; intros; subst.
  right; left; exists s; split; [| auto].
  intros ->; discriminate.
Qed.

Lemma stage_text_app (sid : nat) (a b : list event) :
  stage_text sid (a ++ b) = (stage_text sid a ++ stage_text sid b)%string.
Proof.
  induction a as [|e a IH]; simpl; [reflexivity|].
  destruct e; rewrite ?IH; try reflexivity.
  destruct (Nat.eqb sid0 sid); [apply str_app_assoc | reflexivity].
Qed.

Lemma read_lines_appends (loads : string -> option json) (sid : nat) (lines : list string) :
  forall acc tr r tr',
  read_lines loads sid acc lines tr = (r, tr') ->
  exists ext, tr' = tr ++ ext /\ Forall (nonempty_append sid) ext /\
    forall s, r = inr s -> s = (acc ++ stage_text sid ext)%string.
Proof.
  induction lines as [|line rest IH]; intros acc tr r tr' H; cbn [read_lines] in H.
  - unfold ret in H; injection H; intros; subst. exists []; rewrite app_nil_r.
    repeat split; [constructor|]. intros s Hs; injection Hs; intros; subst; simpl; now rewrite str_app_nil_r.
  - destruct (String.eqb line "") eqn:Hb; [now apply IH|].
    destruct (String.eqb (strip_data line) "[DONE]").
    { unfold ret in H; injection H; intros; subst. exists []; rewrite app_nil_r.
      repeat split; [constructor|]. intros s Hs; injection Hs; intros; subst; simpl; now rewrite str_app_nil_r. }
    destruct (loads (strip_data line)) as [j|]; [|now apply IH].
    apply bind_inv in H as [(e & H & ->) | (a & t & H & Hk)].
    + apply handle_chunk_cases in H as [[Hr _] | [(s & _ & Hr & _) | (e' & Hr & ->)]];
        try discriminate.
      exists []; rewrite app_nil_r; repeat split; [constructor | discriminate].
    + apply IH in Hk as (ext & -> & Hf & Hs).
      apply handle_chunk_cases in H as [[Hr ->] | [(s & Hne & Hr & ->) | (e' & Hr & _)]];
        try discriminate; injection Hr; intros; subst.
      * exists ext; auto.
      * exists (EvStageAppend sid s :: ext); rewrite <- app_assoc; split; [reflexivity|].
        split; [constructor; [exists s; auto | exact Hf]|].
        intros s' Hs'; rewrite (Hs s' Hs'); cbn [stage_text]. rewrite Nat.eqb_refl.
        apply eq_sym, str_app_assoc.
Qed.

Lemma call_ums_agent_appends (E : env) (cid : json) (c : string) (sid : nat) tr r tr' :
  call_ums_agent E cid c sid tr = (r, tr') ->
  exists ext, tr' = tr ++ EvChatCall cid c :: ext /\ Forall (nonempty_append sid) ext /\
    forall s, r = inr s -> s = stage_text sid ext.
Proof.
  unfold call_ums_agent. intros H.
  apply bind_inv in H as [(e & H & ->) | (u & t & H & Hk)];
    [apply emit_inv in H as [? _]; discriminate | apply emit_inv in H as [_ ->]].
  apply bind_inv in Hk as [(e & H & ->) | (lines & t' & H & Hk)].
  - apply lift_inv in H as [_ ->]. exists []; repeat split; [constructor | discriminate].
  - apply lift_inv in H as [_ ->]. apply read_lines_appends in Hk as (ext & -> & Hf & Hs).
    exists ext; rewrite <- app_assoc; repeat split; auto.
Qed.

Lemma conversation_phase (E : env) (found : option json) tr cid t :
  (if is_none found then
     cid <- create_ums_conversation E ;;
     emit (EvSetState (JObj [(UMS_CONVERSATION_ID, JStr cid)])) ;;;
     ret (JStr cid)
   else ret (match found with Some v => v | None => JNull end)) tr = (inr cid, t) ->
  (t = tr /\ is_none found = false /\ cid = match found with Some v => v | None => JNull end) \/
  (exists id, is_none found = true /\ env_create E = inr id /\ cid = JStr id /\
     t = tr ++ [EvCreateConversation; EvSetState (JObj [(UMS_CONVERSATION_ID, JStr id)])]).
Proof.
  destruct (is_none found).
  - unfold create_ums_conversation. intros H.
    apply bind_inv in H as [(e & H & He) | (id & t1 & H & Hk)]; [discriminate|].
    apply bind_inv in H as [(e & H & _) | (u & t2 & H & H')];
      [apply emit_inv in H as [? _]; discriminate | apply emit_inv in H as [_ ->]].
    apply lift_inv in H' as [Hc ->].
    apply bind_inv in Hk as [(e & H & _) | (u' & t3 & H & Hk)];
      [apply emit_inv in H as [? _]; discriminate | apply emit_inv in H as [_ ->]].
    unfold ret in Hk; injection Hk; intros; subst.
    right; exists id; repeat split; auto. now rewrite <- app_assoc.
  - unfold ret; intros H; injection H; intros; subst; left; auto.
Qed.

(** A successful gateway run makes exactly one chat call, preceded only
    by the session creation and its state write (or nothing); after the
    chat call it only appends non-empty fragments to its stage, and the
    returned assistant message's content is exactly the text appended
    there. *)
Theorem ums_reply_is_stage_text (E : env) (sid : nat) (msgs : list message)
    (ai : option string) tr m tr' :
  ums_response E sid msgs ai tr = (inr m, tr') ->
  exists pre cid c post,
    tr' = tr ++ pre ++ EvChatCall cid c :: post /\
    (pre = [] \/ exists id, pre = [EvCreateConversation; EvSetState (JObj [(UMS_CONVERSATION_ID, JStr id)])]) /\
    Forall (nonempty_append sid) post /\
    m = assistant_message (stage_text sid post).
Proof.
  unfold ums_response. intros H.
  apply bind_inv in H as [(e & H & He) | (found & t & H & Hk)]; [discriminate|].
  apply lift_inv in H as [_ ->].
  apply bind_inv in Hk as [(e & H & He) | (cid & t1 & H & Hk)]; [discriminate|].
  apply bind_inv in Hk as [(e & H' & He) | (last & t2 & H' & Hk)]; [discriminate|].
  apply lift_inv in H' as [_ ->].
  apply bind_inv in Hk as [(e & H' & He) | (s & t3 & H' & Hk)]; [discriminate|].
  unfold ret in Hk; injection Hk; intros; subst.
  apply call_ums_agent_appends in H' as (ext & -> & Hf & Hs).
  rewrite (Hs s eq_refl).
  apply conversation_phase in H as [(-> & _ & _) | (id & _ & _ & _ & ->)].
  - exists [], cid, (augment_user_content last ai), ext; repeat split; auto.
  - exists [EvCreateConversation; EvSetState (JObj [(UMS_CONVERSATION_ID, JStr id)])],
      cid, (augment_user_content last ai), ext.
    rewrite <- app_assoc; repeat split; eauto.
Qed.

(** A stream line that is a JSON mapping with a [choices] key aborts the
    stream, nothing appended for it: a [choices] dict raises [KeyError]
    (on [[0]]); a first choice that is not a mapping, or a [delta] that is
    not a mapping, raises [AttributeError] (on [.get]); a truthy
    [delta.content] that is not a string raises [TypeError] (on [+=]). *)
Theorem stream_line_type_errors (loads : string -> option json) (sid : nat)
    (line : string) (kvs : list (string * json)) (acc : string) (rest : list string) tr :
  line <> "" -> strip_data line <> "[DONE]" -> loads (strip_data line) = Some (JObj kvs) ->
  (forall m, dict_lookup "choices" kvs = Some (JObj m) ->
     read_lines loads sid acc (line :: rest) tr = (inl KeyError, tr)) /\
  (forall first more, dict_lookup "choices" kvs = Some (JArr (first :: more)) ->
     (forall c, first <> JObj c) ->
     read_lines loads sid acc (line :: rest) tr = (inl AttributeError, tr)) /\
  (forall c more v, dict_lookup "choices" kvs = Some (JArr (JObj c :: more)) ->
     dict_lookup "delta" c = Some v -> (forall d, v <> JObj d) ->
     read_lines loads sid acc (line :: rest) tr = (inl AttributeError, tr)) /\
  (forall c more d v, dict_lookup "choices" kvs = Some (JArr (JObj c :: more)) ->
     dict_lookup "delta" c = Some (JObj d) -> dict_lookup "content" d = Some v ->
     py_truthy v = true -> (forall s, v <> JStr s) ->
     read_lines loads sid acc (line :: rest) tr = (inl TypeError, tr)).
Proof.
  intros Hne Hd Hl. cbn [read_lines].
  apply String.eqb_neq in Hne, Hd. rewrite Hne, Hd, Hl.
  unfold bind at 1, handle_chunk, bind, lift, py_contains, ret, raise.
  repeat split.
  - intros m Hc. rewrite Hc. unfold py_getitem_str; rewrite Hc. reflexivity.
  - intros first more Hc Hf. rewrite Hc. unfold py_getitem_str; rewrite Hc. cbn [py_getitem_zero].
    destruct first; try reflexivity. now contradiction (Hf kvs0).
  - intros c more v Hc Hdl Hv. rewrite Hc. unfold py_getitem_str; rewrite Hc. cbn [py_getitem_zero py_dict_get].
    rewrite Hdl. destruct v; try reflexivity. now contradiction (Hv kvs0).
  - intros c more d v Hc Hdl Hct Ht Hv. rewrite Hc. unfold py_getitem_str; rewrite Hc.
    cbn [py_getitem_zero py_dict_get]. rewrite Hdl. cbn [py_dict_get]. rewrite Hct, Ht.
    destruct v; try reflexivity. now contradiction (Hv s).
Qed.

Definition is_assistant (m : message) : bool := role_eqb (m_role m) RAssistant.

(** The session lookup only looks at assistant messages: dropping every
    other message from the history does not change its outcome. *)
Theorem conversation_id_reads_assistant_messages_only (msgs : list message) :
  get_ums_conversation_id msgs = get_ums_conversation_id (filter is_assistant msgs).
Proof.
  induction msgs as [|m msgs IH]; [reflexivity|].
  destruct m as [r c cc n]; destruct r; cbn [filter is_assistant role_eqb m_role]; cbn [get_ums_conversation_id m_role m_custom_content];
    try exact IH.
  now rewrite IH.
Qed.



Lemma get_id_null (pre post : list message) (m : message) (cc : custom_content) kvs :
  Forall state_wf pre -> Forall no_session pre ->
  m_role m = RAssistant -> m_custom_content m = Some cc -> cc_state cc = Some (JObj kvs) ->
  dict_lookup UMS_CONVERSATION_ID kvs = Some JNull ->
  get_ums_conversation_id (pre ++ m :: post) = inr (Some JNull).
Proof.
  intros Hwf Hn Hr Hc Hs Hl.
  induction pre as [|p pre IH].
  - cbn [app get_ums_conversation_id]. rewrite Hr, Hc, Hs.
    destruct kvs as [|kv kvs]; [discriminate|]. cbn [py_truthy].
    unfold py_contains, py_getitem_str; rewrite Hl. reflexivity.
  - inversion Hwf; inversion Hn; subst. cbn [app]. rewrite get_id_skip by assumption.
    now apply IH.
Qed.

(** A persisted state mapping the key to JSON null counts as no session:
    the gateway creates a new conversation, writes the new id to the
    choice state, and chats with the new id only. *)
Theorem null_session_id_starts_new_conversation (E : env) (sid : nat) (pre post : list message)
    (m : message) (cc : custom_content) kvs (ai : option string) (id : string) tr r tr' :
  Forall state_wf pre -> Forall no_session pre ->
  m_role m = RAssistant -> m_custom_content m = Some cc -> cc_state cc = Some (JObj kvs) ->
  dict_lookup UMS_CONVERSATION_ID kvs = Some JNull ->
  env_create E = inr id ->
  ums_response E sid (pre ++ m :: post) ai tr = (r, tr') ->
  exists ext,
    tr' = tr ++ EvCreateConversation :: EvSetState (JObj [(UMS_CONVERSATION_ID, JStr id)]) :: ext /\
    ~ In EvCreateConversation ext /\
    (forall c u, In (EvChatCall c u) ext -> c = JStr id) /\
    exists u, In (EvChatCall (JStr id) u) ext.
Proof.
  intros Hwf Hn Hr Hc Hs Hl Hcr Hrun.
  pose proof (get_id_null pre post m cc kvs Hwf Hn Hr Hc Hs Hl) as Hg.
  pose proof (ums_response_fresh E sid _ ai (Some JNull) tr r tr' Hg eq_refl Hrun) as Hf.
  rewrite Hcr in Hf.
  destruct (chat_phase_facts _ _ _ _ _ _ _ _ Hf) as (ext & -> & H1 & _ & H3 & H4 & _).
  exists ext; split; [now rewrite <- app_assoc|].
  split; [exact H1|]. split; [intros c u Hin; now apply (H3 c u Hin)|].
  apply H4. destruct pre; discriminate.
Qed.

(** Round trip across turns: on a first turn whose creation returns [id],
    the state written to the choice, once carried by an assistant message
    of a later history, resolves to [id], and a run on that history makes
    no creation call, writes no state, and chats with [id] only. *)
Theorem session_round_trip (E : env) (sid : nat) (msgs : list message) (ai : option string)
    (id : string) tr r tr' :
  Forall state_wf msgs -> Forall no_session msgs -> env_create E = inr id ->
  ums_response E sid msgs ai tr = (r, tr') ->
  exists st ext,
    tr' = tr ++ EvCreateConversation :: EvSetState st :: ext /\
    forall (m : message) cc more,
      m_role m = RAssistant -> m_custom_content m = Some cc -> cc_state cc = Some st ->
      get_ums_conversation_id (msgs ++ m :: more) = inr (Some (JStr id)) /\
      forall (E' : env) sid' ai' tr0 r0 tr0',
        ums_response E' sid' (msgs ++ m :: more) ai' tr0 = (r0, tr0') ->
        exists ext', tr0' = tr0 ++ ext' /\ ~ In EvCreateConversation ext' /\
          (forall st', ~ In (EvSetState st') ext') /\
          (forall c u, In (EvChatCall c u) ext' -> c = JStr id).
Proof.
  intros Hwf Hn Hcr Hrun.
  pose proof (get_id_none msgs Hwf Hn) as Hg.
  pose proof (ums_response_fresh E sid msgs ai None tr r tr' Hg eq_refl Hrun) as Hf.
  rewrite Hcr in Hf.
  destruct (chat_phase_facts _ _ _ _ _ _ _ _ Hf) as (ext & -> & _).
  exists (JObj [(UMS_CONVERSATION_ID, JStr id)]), ext; split; [now rewrite <- app_assoc|].
  intros m cc more Hr Hc Hs.
  assert (Hp : persisted_session_id m = Some id).
  { unfold persisted_session_id; rewrite Hr, Hc, Hs; cbn. reflexivity. }
  assert (Hg' : get_ums_conversation_id (msgs ++ m :: more) = inr (Some (JStr id)))
    by now apply get_id_first_match.
  split; [exact Hg'|].
  intros E' sid' ai' tr0 r0 tr0' Hrun'.
  destruct (chat_phase_facts _ _ _ _ _ _ _ _
              (ums_response_found E' sid' _ ai' (JStr id) tr0 r0 tr0' Hg' eq_refl Hrun'))
    as (ext' & -> & H1 & H2 & H3 & _).
  exists ext'; repeat split; auto.
  intros c u Hin; now apply (H3 c u Hin).
Qed.

Definition nonempty (s : string) : bool := negb (String.eqb s "").

(** The synthesis loop reads only the first choice of each chunk, appends
    each non-empty first-choice fragment to the choice once, in order,
    and returns the content accumulated from exactly those fragments. *)
Theorem synthesis_stream_first_choice_only (E : env) (chunks : list chunk) :
  forall content tr,
  read_chunks content chunks tr = read_chunks content (map (firstn 1) chunks) tr /\
  read_chunks content chunks tr
  = (inr (content ++ String.concat "" (filter nonempty (synthesis_fragments chunks)))%string,
     tr ++ map EvChoiceAppend (filter nonempty (synthesis_fragments chunks))).
Proof.
  induction chunks as [|ch rest IH]; intros content tr.
  - cbn. rewrite app_nil_r, str_app_nil_r; auto.
  - destruct ch as [|[c|] more]; cbn [read_chunks map firstn synthesis_fragments].
    + apply IH.
    + cbn [filter]. change (nonempty c) with (negb (String.eqb c "")).
      destruct (String.eqb c "") eqn:Hc; cbn [negb].
      * apply IH.
      * unfold bind, emit. destruct (IH (content ++ c)%string (tr ++ [EvChoiceAppend c])) as [H1 H2].
        rewrite H1 in H2 |- *. split; [reflexivity|]. rewrite H2.
        rewrite concat_cons, str_app_assoc, <- app_assoc. reflexivity.
    + apply IH.
Qed.

(** On an empty history the only adapted message is the system entry, so
    the synthesis call receives that entry with its content replaced by
    the composite built around the synthesis system prompt. *)
Theorem synthesis_on_empty_history (E : env) (agent_message : message) tr :
  exists ext,
    snd (final_response E [] agent_message tr)
    = tr ++ EvSynthesisCall
              [[("role", JStr "system");
                ("content", JStr (augmented_content FINAL_RESPONSE_SYSTEM_PROMPT agent_message))]]
         :: ext.
Proof.
  destruct (final_response E [] agent_message tr) as [r tr'] eqn:H. cbn [snd].
  unfold final_response in H.
  replace (augment_last (prepare_messages [] FINAL_RESPONSE_SYSTEM_PROMPT) agent_message)
    with [[("role", JStr "system");
           ("content", JStr (augmented_content FINAL_RESPONSE_SYSTEM_PROMPT agent_message))]] in H
    by reflexivity.
  apply bind_inv in H as [(e & H & _) | (u & t & H & Hk)];
    [apply emit_inv in H as [? _]; discriminate | apply emit_inv in H as [_ ->]].
  apply bind_inv in Hk as [(e & H & _) | (chunks & t' & H & Hk)].
  - apply lift_inv in H as [_ ->]. exists []; reflexivity.
  - apply lift_inv in H as [_ ->].
    destruct (read_chunks_spec E chunks ""
                (tr ++ [EvSynthesisCall [[("role", JStr "system");
                  ("content", JStr (augmented_content FINAL_RESPONSE_SYSTEM_PROMPT agent_message))]]]))
      as (ext & Hr & _).
    unfold bind in Hk; rewrite Hr in Hk; unfold ret in Hk; injection Hk; intros; subst.
    exists ext; rewrite <- app_assoc; reflexivity.
Qed.



Definition assistant_with_state (s : string) (st : json) : message :=
  {| m_role := RAssistant; m_content := Some s;
     m_custom_content := Some {| cc_stages := None; cc_attachments := None; cc_state := Some st |};
     m_name := None |}.

Lemma stream_ignores_lines_after_done_witness :
  read_lines loads_fragment 1 "" scenario_lines [] = read_lines loads_fragment 1 "" (firstn 3 scenario_lines) [].
Proof.
  exact (stream_ignores_lines_after_done loads_fragment 1 (firstn 3 scenario_lines)
           ["trailing garbage"] "data: [DONE]" eq_refl "" []).
Defined.

Lemma stream_lines_compose_witness :
  read_lines loads_fragment 1 "" scenario_lines []
  = (acc' <- read_lines loads_fragment 1 "" (firstn 2 scenario_lines) ;;
     read_lines loads_fragment 1 acc' (skipn 2 scenario_lines)) [].
Proof.
  apply (stream_lines_compose loads_fragment 1 (firstn 2 scenario_lines) (skipn 2 scenario_lines)).
  repeat constructor; intros H; vm_compute in H; discriminate H.
Defined.

Lemma ums_reply_is_stage_text_witness :
  exists pre cid c post,
    snd (ums_response test_env 1 [user_msg "create user Alice"] None [])
    = [] ++ pre ++ EvChatCall cid c :: post /\
    assistant_message "Hello" = assistant_message (stage_text 1 post).
Proof.
  destruct (ums_reply_is_stage_text test_env 1 [user_msg "create user Alice"] None []
              (assistant_message "Hello")
              (snd (ums_response test_env 1 [user_msg "create user Alice"] None [])))
    as (pre & cid & c & post & H1 & _ & _ & H4); [reflexivity|].
  exists pre, cid, c, post; split; [exact H1 | exact H4].
Defined.

Lemma stream_line_type_errors_witness :
  read_lines loads_fragment 1 "" [dq "data: {'choices':[{'delta':{'content':5}}]}"] []
  = (inl TypeError, []).
Proof.
  apply (proj2 (proj2 (proj2 (stream_line_type_errors loads_fragment 1
           (dq "data: {'choices':[{'delta':{'content':5}}]}")
           [("choices", JArr [JObj [("delta", JObj [("content", JNum 5)])]])] "" [] []
           ltac:(discriminate) ltac:(intros H; vm_compute in H; discriminate H) eq_refl)))
           [("delta", JObj [("content", JNum 5)])] [] [("content", JNum 5)] (JNum 5));
    try reflexivity.
  intros s H; discriminate H.
Defined.


Lemma null_session_id_starts_new_conversation_witness :
  exists ext,
    snd (ums_response test_env 1
           [user_msg "create user Alice"; assistant_with_state "Done." (JObj [(UMS_CONVERSATION_ID, JNull)]);
            user_msg "list users"] None [])
    = [] ++ EvCreateConversation :: EvSetState (JObj [(UMS_CONVERSATION_ID, JStr "conv-1")]) :: ext /\
    exists u, In (EvChatCall (JStr "conv-1") u) ext.
Proof.
  destruct (null_session_id_starts_new_conversation test_env 1 [user_msg "create user Alice"]
              [user_msg "list users"]
              (assistant_with_state "Done." (JObj [(UMS_CONVERSATION_ID, JNull)]))
              {| cc_stages := None; cc_attachments := None;
                 cc_state := Some (JObj [(UMS_CONVERSATION_ID, JNull)]) |}
              [(UMS_CONVERSATION_ID, JNull)] None "conv-1" []
              (fst (ums_response test_env 1
                      [user_msg "create user Alice"; assistant_with_state "Done." (JObj [(UMS_CONVERSATION_ID, JNull)]);
                       user_msg "list users"] None []))
              (snd (ums_response test_env 1
                      [user_msg "create user Alice"; assistant_with_state "Done." (JObj [(UMS_CONVERSATION_ID, JNull)]);
                       user_msg "list users"] None [])))
    as (ext & H1 & _ & _ & H4); try reflexivity.
  - repeat constructor; intros H; discriminate H.
  - repeat constructor.
  - exists ext; split; [exact H1 | exact H4].
Defined.

Lemma session_round_trip_witness :
  exists st ext,
    snd (ums_response test_env 1 [user_msg "create user Alice"] None [])
    = [] ++ EvCreateConversation :: EvSetState st :: ext /\
    get_ums_conversation_id
      ([user_msg "create user Alice"] ++ assistant_with_state "Done." st :: [user_msg "list users"])
    = inr (Some (JStr "conv-1")).
Proof.
  destruct (session_round_trip test_env 1 [user_msg "create user Alice"] None "conv-1" []
              (fst (ums_response test_env 1 [user_msg "create user Alice"] None []))
              (snd (ums_response test_env 1 [user_msg "create user Alice"] None [])))
    as (st & ext & H1 & H2).
  - repeat constructor; intros H; discriminate H.
  - repeat constructor.
  - reflexivity.
  - reflexivity.
  - exists st, ext; split; [exact H1|].
    apply (H2 (assistant_with_state "Done." st)
             {| cc_stages := None; cc_attachments := None; cc_state := Some st |}
             [user_msg "list users"]); reflexivity.
Defined.

